(** * py-api-diplom: the dog image backup pipeline of [main.py]

    A shallow embedding of [YandexDiskAPI], [DogCeoAPI] and
    [DogImageDownloader], and the properties of the orchestration pipeline.

    Modelling conventions.
    - A Python [str] is a [string] (its UTF-8 bytes); an f-string is a
      concatenation with [+:+].
    - A Python [dict] with [str] keys is an association list in insertion
      order ([dict V]); a dict object never holds a key twice, which the
      statements that depend on it assume as [NoDup (Dict.keys d)].
    - Values have the types of the annotations of [main.py]: a breed and a
      sub-breed are [str], the sub-breeds of a breed are a list of [str],
      [get_breed_image] returns an [Optional[str]].  The body of an answer
      of the catalog decodes to a JSON object of the documented shape, or
      is not JSON at all; JSON of another shape is outside the model.
    - Python truthiness is written out: [""], [None], [[]] and [{}] are
      false.
    - The two remote services answer every request; what they answer is
      arbitrary and may change from call to call.  They are functions of a
      world state [W] that the program threads through its calls.  A
      request that gets no answer at all (a fault of the transport) is
      outside the model, as is a file that cannot be written.
    - [urlparse] raises [ValueError] for a URL whose authority it rejects.
      Two of its checks consult the tables of [ipaddress] and of
      [unicodedata]; they are given with the environment ([Lib]).
    - [self.results], the files of the working directory and the sequence of
      calls made to the two API clients form the rest of the state.  The
      log, with its file [dog_downloader.log], and the progress bar are not
      modelled.
    - An exception is the [Raise] outcome of the monad [M]: the subscript of
      a dict without the key, an operation that a [str] does not support,
      [response.json()] on a body that is not JSON, [urlparse] on a URL that
      it rejects.  Nothing in [DogImageDownloader] catches one: it ends the
      run.
    - [main] reads its two lines from a console and prints to it; it
      catches the exceptions of the run it makes. *)

From stdpp Require Import gmap strings list.
From Stdlib Require Import ZArith Ascii.

Local Open Scope Z_scope.

(** ** Strings *)

Module Str.

Definition nl : string := String "010"%char EmptyString.

(** [c in s] for a one-character [c]. *)
Fixpoint mem (c : ascii) (s : string) : bool :=
  match s with
  | EmptyString => false
  | String d s' => Ascii.eqb c d || mem c s'
  end.

(** [s.split(c, 1)[0]] when [c in s], and [s] itself otherwise. *)
Fixpoint before (c : ascii) (s : string) : string :=
  match s with
  | EmptyString => EmptyString
  | String d s' => if Ascii.eqb c d then EmptyString else String d (before c s')
  end.

(** [s.split(c, 1)[1]] when [c in s]. *)
Fixpoint after (c : ascii) (s : string) : string :=
  match s with
  | EmptyString => EmptyString
  | String d s' => if Ascii.eqb c d then s' else after c s'
  end.

Fixpoint forallb (p : ascii → bool) (s : string) : bool :=
  match s with
  | EmptyString => true
  | String c s' => p c && forallb p s'
  end.

Fixpoint map (f : ascii → ascii) (s : string) : string :=
  match s with
  | EmptyString => EmptyString
  | String c s' => String (f c) (map f s')
  end.

Fixpoint filter (p : ascii → bool) (s : string) : string :=
  match s with
  | EmptyString => EmptyString
  | String c s' => if p c then String c (filter p s') else filter p s'
  end.

(** [s.lstrip(chars)] for the set of characters that [p] decides. *)
Fixpoint lstrip (p : ascii → bool) (s : string) : string :=
  match s with
  | EmptyString => EmptyString
  | String c s' => if p c then lstrip p s' else s
  end.

(** The longest prefix of [s] whose characters all satisfy [p], and the
    rest of [s]. *)
Fixpoint span (p : ascii → bool) (s : string) : string * string :=
  match s with
  | EmptyString => (EmptyString, EmptyString)
  | String c s' =>
      if p c then let '(a, b) := span p s' in (String c a, b)
      else (EmptyString, s)
  end.

(** [t in s] for strings: [t] occurs in [s] as a substring. *)
Fixpoint contains (s t : string) : bool :=
  String.prefix t s ||
  match s with
  | EmptyString => false
  | String _ s' => contains s' t
  end.

(** Python's truth value of a [str]. *)
Definition truthy (s : string) : bool :=
  match s with EmptyString => false | String _ _ => true end.

Definition code (c : ascii) : Z := Z.of_nat (nat_of_ascii c).

(** [s.isascii()]: no byte of a character outside ASCII. *)
Definition is_ascii (s : string) : bool := forallb (λ c, code c <? 128) s.

End Str.

(** ** Python dicts with [str] keys *)

Definition dict (V : Type) : Type := list (string * V).

Module Dict.
Section Ops.
Context {V : Type}.

Definition keys (d : dict V) : list string := d.*1.

(** [d.items()], in insertion order. *)
Definition items (d : dict V) : list (string * V) := d.

(** [d.get(k)]: the value at [k], or nothing. *)
Fixpoint get (k : string) (d : dict V) : option V :=
  match d with
  | [] => None
  | (k', v) :: d' => if String.eqb k k' then Some v else get k d'
  end.

(** [k in d]. *)
Definition has (k : string) (d : dict V) : bool :=
  match get k d with Some _ => true | None => false end.

(** Python's truth value of a dict. *)
Definition truthy (d : dict V) : bool :=
  match d with [] => false | _ :: _ => true end.
End Ops.
End Dict.

(** ** [urllib.parse.urlparse(url).path] and [os.path.basename]

    The two library functions behind [extract_filename_from_url], modelled
    after CPython 3.12's [urllib/parse.py] and [posixpath.py].  [urlsplit]
    strips leading C0 control characters and spaces, removes tab, carriage
    return and line feed, splits off a scheme, then an authority introduced
    by [//], then the fragment after the first [#] and the query after the
    first [?]; [urlparse] finally splits off the parameters of the last
    path segment (after [;]) for the schemes that use them.

    [urlsplit] raises [ValueError] when it rejects the authority: when one
    of the brackets [[] and []] occurs in it without the other; when both
    occur and the check of the bracketed host fails
    ([_check_bracketed_host], [_check_bracketed_netloc] by the version of
    the library; Python before 3.11.4 has none); and when the authority is
    not ASCII and [_checknetloc] finds that its NFKC normal form holds a
    delimiter.  The last two checks parse an IP address and normalise
    Unicode text: their verdicts on an authority are the two fields of
    [Lib], [true] for an authority that passes. *)

Record Lib : Type := {
  check_bracketed_netloc : string → bool;
  checknetloc : string → bool
}.

Module Url.

(** [_WHATWG_C0_CONTROL_OR_SPACE]. *)
Definition c0_control_or_space (c : ascii) : bool := Str.code c <=? 32.

(** [_UNSAFE_URL_BYTES_TO_REMOVE]. *)
Definition unsafe_byte (c : ascii) : bool :=
  (Str.code c =? 9) || (Str.code c =? 13) || (Str.code c =? 10).

Definition is_upper (c : ascii) : bool := (65 <=? Str.code c) && (Str.code c <=? 90).
Definition is_lower (c : ascii) : bool := (97 <=? Str.code c) && (Str.code c <=? 122).
Definition is_digit (c : ascii) : bool := (48 <=? Str.code c) && (Str.code c <=? 57).

(** [url[0].isascii() and url[0].isalpha()]. *)
Definition ascii_alpha (c : ascii) : bool := is_upper c || is_lower c.

(** [scheme_chars]: letters, digits and [+-.]. *)
Definition scheme_char (c : ascii) : bool :=
  is_upper c || is_lower c || is_digit c ||
  (Str.code c =? 43) || (Str.code c =? 45) || (Str.code c =? 46).

Definition lower (c : ascii) : ascii :=
  if is_upper c then ascii_of_nat (nat_of_ascii c + 32) else c.

Definition uses_params : list string :=
  [""; "ftp"; "hdl"; "prospero"; "http"; "imap"; "https"; "shttp"; "rtsp";
   "rtspu"; "sip"; "sips"; "mms"; "sftp"; "tel"]%string.

(** The scheme of [url] and what follows its colon; the scheme is empty
    and [url] is kept whole when no scheme is recognised. *)
Definition split_scheme (url : string) : string * string :=
  if Str.mem ":"%char url then
    let pre := Str.before ":"%char url in
    match pre with
    | String c _ =>
        if ascii_alpha c && Str.forallb scheme_char pre
        then (Str.map lower pre, Str.after ":"%char url)
        else (EmptyString, url)
    | EmptyString => (EmptyString, url)
    end
  else (EmptyString, url).

Definition netloc_delim (c : ascii) : bool :=
  Ascii.eqb c "/"%char || Ascii.eqb c "?"%char || Ascii.eqb c "#"%char.

(** [_splitnetloc(url, 2)] when [url[:2] == '//']. *)
Definition split_netloc (url : string) : string * string :=
  match url with
  | String c1 (String c2 rest) =>
      if Ascii.eqb c1 "/"%char && Ascii.eqb c2 "/"%char
      then Str.span (λ c, negb (netloc_delim c)) rest
      else (EmptyString, url)
  | _ => (EmptyString, url)
  end.

(** [os.path.basename(p)]: what follows the last slash of [p]. *)
Fixpoint basename (p : string) : string :=
  match p with
  | EmptyString => EmptyString
  | String c p' => if Ascii.eqb c "/"%char || Str.mem "/"%char p' then basename p' else p
  end.

(** [p] up to and including its last slash. *)
Fixpoint dirpart (p : string) : string :=
  match p with
  | EmptyString => EmptyString
  | String c p' =>
      if Ascii.eqb c "/"%char || Str.mem "/"%char p' then String c (dirpart p') else EmptyString
  end.

(** [_splitparams(url)[0]]: [url] cut at the first [;] of its last
    segment. *)
Definition strip_params (url : string) : string :=
  dirpart url +:+ Str.before ";"%char (basename url).

(** The checks of the authority in [urlsplit]: [false] when one of them
    raises [ValueError]. *)
Definition netloc_accepted (lib : Lib) (netloc : string) : bool :=
  let opens := Str.mem "["%char netloc in
  let closes := Str.mem "]"%char netloc in
  if (opens && negb closes) || (closes && negb opens) then false
  else if opens && closes && negb (check_bracketed_netloc lib netloc) then false
  else if Str.truthy netloc && negb (Str.is_ascii netloc)
          && negb (checknetloc lib netloc) then false
  else true.

(** [urlsplit(url)]: scheme and path, or nothing when it raises
    [ValueError]. *)
Definition urlsplit (lib : Lib) (url : string) : option (string * string) :=
  let url := Str.lstrip c0_control_or_space url in
  let url := Str.filter (λ c, negb (unsafe_byte c)) url in
  let '(scheme, url) := split_scheme url in
  let '(netloc, url) := split_netloc url in
  if netloc_accepted lib netloc then
    let url := Str.before "#"%char url in
    let url := Str.before "?"%char url in
    Some (scheme, url)
  else None.

(** [urlparse(url).path], or nothing when [urlparse] raises
    [ValueError]. *)
Definition urlparse_path (lib : Lib) (url : string) : option string :=
  match urlsplit lib url with
  | Some (scheme, url) =>
      Some (if bool_decide (scheme ∈ uses_params) && Str.mem ";"%char url
            then strip_params url
            else url)
  | None => None
  end.

(** The authority of [url], which [urlsplit] checks. *)
Definition netloc (url : string) : string :=
  let url := Str.lstrip c0_control_or_space url in
  let url := Str.filter (λ c, negb (unsafe_byte c)) url in
  let '(_, url) := split_scheme url in
  (split_netloc url).1.

(** The scheme and the path that [urlsplit] gives for [url] when it accepts
    its authority. *)
Definition split (url : string) : string * string :=
  let url := Str.lstrip c0_control_or_space url in
  let url := Str.filter (λ c, negb (unsafe_byte c)) url in
  let '(scheme, url) := split_scheme url in
  let '(_, url) := split_netloc url in
  let url := Str.before "#"%char url in
  let url := Str.before "?"%char url in
  (scheme, url).

(** The path that [urlparse] gives for [url] when it accepts its
    authority. *)
Definition path (url : string) : string :=
  let '(scheme, url) := split url in
  if bool_decide (scheme ∈ uses_params) && Str.mem ";"%char url
  then strip_params url
  else url.

End Url.

(** ** Values and [json.dump]

    The values that the program stores in its result dicts are strings and
    [None].  [Json.dump] is [json.dump(obj, f, indent=2, ensure_ascii=False)]
    for a list of such dicts, after CPython's [json/encoder.py]. *)

Inductive pyval : Type :=
| PNone
| PStr (s : string).

Module Json.

Definition quote : ascii := "034"%char.

Definition hex_digit (n : Z) : ascii :=
  ascii_of_nat (Z.to_nat (if n <? 10 then 48 + n else 87 + n)).

(** [ESCAPE_DCT]: backslash, the double quote and the control characters
    are escaped, everything else is kept. *)
Definition escape (c : ascii) : string :=
  let n := Str.code c in
  if n =? 92 then "\\"
  else if n =? 34 then String "\"%char (String quote EmptyString)
  else if n =? 8 then "\b"
  else if n =? 12 then "\f"
  else if n =? 10 then "\n"
  else if n =? 13 then "\r"
  else if n =? 9 then "\t"
  else if n <? 32 then
    "\u00" +:+ String (hex_digit (n / 16)) (String (hex_digit (n mod 16)) EmptyString)
  else String c EmptyString.

Fixpoint escape_all (s : string) : string :=
  match s with
  | EmptyString => EmptyString
  | String c s' => escape c +:+ escape_all s'
  end.

(** [py_encode_basestring]. *)
Definition encode_str (s : string) : string :=
  String quote (escape_all s +:+ String quote EmptyString).

Definition encode (v : pyval) : string :=
  match v with
  | PNone => "null"
  | PStr s => encode_str s
  end.

Fixpoint spaces (n : nat) : string :=
  match n with
  | O => EmptyString
  | S n' => String " "%char (spaces n')
  end.

(** ['\n' + indent * level] with [indent] two spaces. *)
Definition newline_indent (level : nat) : string :=
  Str.nl +:+ spaces (2 * level).

Fixpoint join (sep : string) (l : list string) : string :=
  match l with
  | [] => EmptyString
  | [x] => x
  | x :: l' => x +:+ sep +:+ join sep l'
  end.

Definition encode_item (kv : string * pyval) : string :=
  encode_str kv.1 +:+ ": " +:+ encode kv.2.

Definition encode_dict (level : nat) (d : dict pyval) : string :=
  match d with
  | [] => "{}"
  | _ :: _ =>
      "{" +:+ newline_indent (S level)
      +:+ join ("," +:+ newline_indent (S level)) (encode_item <$> d)
      +:+ newline_indent level +:+ "}"
  end.

Definition dump (obj : list (dict pyval)) : string :=
  match obj with
  | [] => "[]"
  | _ :: _ =>
      "[" +:+ newline_indent 1
      +:+ join ("," +:+ newline_indent 1) (encode_dict 1 <$> obj)
      +:+ newline_indent 0 +:+ "]"
  end.

End Json.

(** ** The remote services, the state and the monad *)

(** A value of the catalog listing's payload.  The listing is
    [{"message": {breed: [sub-breed, ...], ...}, "status": "success"}]: a
    field is a text or a mapping from breeds to their sub-breeds. *)
Inductive catalog_value : Type :=
| Text (s : string)
| Breeds (m : dict (list string)).

(** A [requests.Response]: its [status_code] and its body, as
    [response.json()] decodes it; [None] is a body that is not a JSON
    document, for which [response.json()] raises. *)
Record response (J : Type) : Type := Response {
  status_code : Z;
  json : option J
}.
Arguments Response {J} _ _.
Arguments status_code {J} _.
Arguments json {J} _.

(** The outside of the program, as it sees it.  [put path] and
    [post params] are the requests of [YandexDiskAPI] with the query
    parameters they send; [get_breeds url] and [get_image url] are the
    requests of [DogCeoAPI]; [urllib] is the library that parses the
    URLs. *)
Record Net (W : Type) : Type := {
  put : string → W → Z * W;
  post : string → string → W → Z * W;
  get_breeds : string → W → response (dict catalog_value) * W;
  get_image : string → W → response (dict string) * W;
  urllib : Lib
}.
Arguments put {W} _ _ _.
Arguments post {W} _ _ _ _.
Arguments get_breeds {W} _ _ _.
Arguments get_image {W} _ _ _.
Arguments urllib {W} _.

Inductive exn : Type :=
| KeyError (key : string)
| TypeError
| AttributeError
| JSONDecodeError
| ValueError.

Inductive outcome (A : Type) : Type :=
| Return (a : A)
| Raise (e : exn).
Arguments Return {A} _.
Arguments Raise {A} _.

(** What the orchestrator did to the outside: the calls of the methods of
    its two clients with what they returned, and the files it wrote. *)
Inductive event : Type :=
| CreateFolder (folder_path : string) (ret : bool)
| UploadFile (file_url disk_path : string) (ret : bool)
| GetAllBreeds (ret : outcome (dict catalog_value))
| GetBreedImage (breed : string) (sub_breed : option string)
    (ret : outcome (option string))
| WriteFile (filename content : string).

(** An entry of [images_to_download]. *)
Record img_data : Type := ImgData {
  url : string;
  breed : string;
  sub_breed : option string
}.

(** Python's truth value of an [Optional[str]]. *)
Definition truthy (o : option string) : bool :=
  match o with
  | Some s => Str.truthy s
  | None => false
  end.

Definition opt_val (o : option string) : pyval :=
  match o with
  | Some s => PStr s
  | None => PNone
  end.

(** [str(o)] inside an f-string, for a truthy [o]. *)
Definition opt_str (o : option string) : string := default EmptyString o.

Section Pipeline.

Context {W : Type}.
Variable net : Net W.

Record state : Type := State {
  world : W;
  results : list (dict pyval);   (* self.results *)
  files : gmap string string;    (* the working directory, the log apart *)
  trace : list event
}.

(** The state of a fresh [DogImageDownloader]. *)
Definition init (w : W) (fs : gmap string string) : state :=
  State w [] fs [].

Definition M (A : Type) : Type := state → outcome A * state.

Definition ret {A} (a : A) : M A := λ st, (Return a, st).

Definition raise {A} (e : exn) : M A := λ st, (Raise e, st).

Definition bind {A B} (m : M A) (k : A → M B) : M B := λ st,
  match m st with
  | (Return a, st') => k a st'
  | (Raise e, st') => (Raise e, st')
  end.

Notation "'let*' x := m 'in' k" := (bind m (λ x, k))
  (at level 10, x name, m at level 100, k at level 200).

Definition emit (e : event) : M unit := λ st,
  (Return tt, State (world st) (results st) (files st) (trace st ++ [e])).

(** Runs [m] and records how it ended. *)
Definition traced {A} (ev : outcome A → event) (m : M A) : M A := λ st,
  let '(r, st') := m st in
  (r, State (world st') (results st') (files st') (trace st' ++ [ev r])).

Definition requests_put (path : string) : M Z := λ st,
  let '(code, w) := put net path (world st) in
  (Return code, State w (results st) (files st) (trace st)).

Definition requests_post (path file_url : string) : M Z := λ st,
  let '(code, w) := post net path file_url (world st) in
  (Return code, State w (results st) (files st) (trace st)).

Definition requests_get_breeds (url : string) : M (response (dict catalog_value)) := λ st,
  let '(r, w) := get_breeds net url (world st) in
  (Return r, State w (results st) (files st) (trace st)).

Definition requests_get_image (url : string) : M (response (dict string)) := λ st,
  let '(r, w) := get_image net url (world st) in
  (Return r, State w (results st) (files st) (trace st)).

(** [response.json()] *)
Definition response_json {J} (response : response J) : M J :=
  match json response with
  | Some data => ret data
  | None => raise JSONDecodeError
  end.

(** [d[k]] *)
Definition subscript {V} (d : dict V) (k : string) : M V :=
  match Dict.get k d with
  | Some v => ret v
  | None => raise (KeyError k)
  end.

(** *** [YandexDiskAPI] *)

Definition create_folder (folder_path : string) : M bool :=
  let* status_code := requests_put folder_path in
  let r :=
    if status_code =? 201 then true
    else if status_code =? 409 then true
    else false in
  let* _ := emit (CreateFolder folder_path r) in
  ret r.

Definition upload_file_from_url (file_url disk_path : string) : M bool :=
  let* status_code := requests_post disk_path file_url in
  let r := if status_code =? 202 then true else false in
  let* _ := emit (UploadFile file_url disk_path r) in
  ret r.

(** *** [DogCeoAPI] *)

Definition base_url : string := "https://dog.ceo/api".

Definition get_all_breeds : M (dict catalog_value) :=
  traced GetAllBreeds
    (let* response := requests_get_breeds (base_url +:+ "/breeds/list/all") in
     if status_code response =? 200 then response_json response
     else ret []).

Definition get_breed_image (breed : string) (sub_breed : option string)
  : M (option string) :=
  traced (GetBreedImage breed sub_breed)
    (let url :=
       if truthy sub_breed
       then base_url +:+ "/breed/" +:+ breed +:+ "/" +:+ opt_str sub_breed +:+ "/images/random"
       else base_url +:+ "/breed/" +:+ breed +:+ "/images/random" in
     let* response := requests_get_image url in
     if status_code response =? 200 then
       let* data := response_json response in
       let* status := subscript data "status" in
       if String.eqb status "success" then
         let* message := subscript data "message" in
         ret (Some message)
       else ret None
     else ret None).

(** *** [DogImageDownloader] *)

Definition extract_filename_from_url (url : string) : M string :=
  match Url.urlparse_path (urllib net) url with
  | Some path => ret (Url.basename path)
  | None => raise ValueError
  end.

Definition download_single_image (img : img_data) (folder_path : string) : M unit :=
  let url := url img in
  let breed := breed img in
  let sub_breed := sub_breed img in
  let* original_filename := extract_filename_from_url url in
  let filename :=
    if truthy sub_breed
    then breed +:+ "_" +:+ opt_str sub_breed +:+ "_" +:+ original_filename
    else breed +:+ "_" +:+ original_filename in
  let disk_path := folder_path +:+ "/" +:+ filename in
  let* ok := upload_file_from_url url disk_path in
  let result : dict pyval :=
    if ok then
      [("breed", PStr breed); ("sub_breed", opt_val sub_breed);
       ("filename", PStr filename); ("original_url", PStr url);
       ("disk_path", PStr disk_path); ("status", PStr "success")]
    else
      [("breed", PStr breed); ("sub_breed", opt_val sub_breed);
       ("filename", PStr filename); ("original_url", PStr url);
       ("disk_path", PStr disk_path); ("status", PStr "error")] in
  λ st, (Return tt,
         State (world st) (results st ++ [result]) (files st) (trace st)).

(** [for sub_breed in sub_breeds: ...], with [images_to_download] as the
    accumulator. *)
Fixpoint for_sub_breeds (breed : string) (sub_breeds : list string)
    (images_to_download : list img_data) : M (list img_data) :=
  match sub_breeds with
  | [] => ret images_to_download
  | sub_breed :: rest =>
      let* image_url := get_breed_image breed (Some sub_breed) in
      for_sub_breeds breed rest
        (if truthy image_url
         then images_to_download ++ [ImgData (opt_str image_url) breed (Some sub_breed)]
         else images_to_download)
  end.

(** [for img_data in tqdm(images_to_download, ...): ...] *)
Fixpoint for_images (images_to_download : list img_data) (folder_path : string)
  : M unit :=
  match images_to_download with
  | [] => ret tt
  | img :: rest =>
      let* _ := download_single_image img folder_path in
      for_images rest folder_path
  end.

Definition download_breed_images (breed : string) (sub_breeds : list string)
  : M unit :=
  let folder_path := "/PY-130(API)/dog_images/" +:+ breed in
  let* ok := create_folder folder_path in
  if negb ok then ret tt
  else
    let* images_to_download :=
      (match sub_breeds with
       | _ :: _ => for_sub_breeds breed sub_breeds []
       | [] =>
           let* image_url := get_breed_image breed None in
           ret (if truthy image_url
                then [ImgData (opt_str image_url) breed None]
                else [])
       end) in
    for_images images_to_download folder_path.

Definition save_results_to_json (filename : string) : M unit := λ st,
  let content := Json.dump (results st) in
  (Return tt,
   State (world st) (results st) (<[filename := content]> (files st))
     (trace st ++ [WriteFile filename content])).

(** [target_breed in breeds] *)
Definition breeds_contains (breeds : catalog_value) (target_breed : string)
  : M bool :=
  match breeds with
  | Breeds m => ret (Dict.has target_breed m)
  | Text s => ret (Str.contains s target_breed)
  end.

(** [breeds[target_breed]] *)
Definition breeds_subscript (breeds : catalog_value) (target_breed : string)
  : M (list string) :=
  match breeds with
  | Breeds m => subscript m target_breed
  | Text _ => raise TypeError
  end.

(** [breeds.items()] *)
Definition breeds_items (breeds : catalog_value) : M (list (string * list string)) :=
  match breeds with
  | Breeds m => ret (Dict.items m)
  | Text _ => raise AttributeError
  end.

(** [for breed, sub_breeds in tqdm(breeds.items(), ...): ...] *)
Fixpoint for_breeds (items : list (string * list string)) : M unit :=
  match items with
  | [] => ret tt
  | (breed, sub_breeds) :: rest =>
      let* _ := download_breed_images breed sub_breeds in
      for_breeds rest
  end.

Definition run (target_breed : option string) : M unit :=
  let* ok := create_folder "/PY-130(API)" in
  if negb ok then ret tt
  else
    let* ok := create_folder "/PY-130(API)/dog_images" in
    if negb ok then ret tt
    else
      let* breeds_data := get_all_breeds in
      if negb (Dict.truthy breeds_data) || negb (Dict.has "message" breeds_data)
      then ret tt
      else
        let* breeds := subscript breeds_data "message" in
        if truthy target_breed then
          let target_breed := opt_str target_breed in
          let* found := breeds_contains breeds target_breed in
          if found then
            let* v := breeds_subscript breeds target_breed in
            let* sub_breeds :=
              (match v with
               | _ :: _ => breeds_subscript breeds target_breed
               | [] => ret []
               end) in
            let* _ := download_breed_images target_breed sub_breeds in
            save_results_to_json "download_results.json"
          else ret tt
        else
          let* items := breeds_items breeds in
          let* _ := for_breeds items in
          save_results_to_json "download_results.json".

End Pipeline.

Arguments State {W} _ _ _ _.
Arguments world {W} _.
Arguments results {W} _.
Arguments files {W} _.
Arguments trace {W} _.

(** * The vocabulary of the statements *)

(** ** What [download_single_image] computes *)

(** The filename, the destination and the result dict that
    [download_single_image] computes for a candidate whose URL [urlparse]
    accepts, given what the upload returned. *)
Definition filename_of (img : img_data) : string :=
  if truthy (sub_breed img)
  then breed img +:+ "_" +:+ opt_str (sub_breed img) +:+ "_"
       +:+ Url.basename (Url.path (url img))
  else breed img +:+ "_" +:+ Url.basename (Url.path (url img)).

Definition disk_path_of (img : img_data) (folder_path : string) : string :=
  folder_path +:+ "/" +:+ filename_of img.

Definition result_of (folder_path : string) (img : img_data) (ok : bool)
  : dict pyval :=
  [("breed", PStr (breed img)); ("sub_breed", opt_val (sub_breed img));
   ("filename", PStr (filename_of img)); ("original_url", PStr (url img));
   ("disk_path", PStr (disk_path_of img folder_path));
   ("status", PStr (if ok then "success" else "error"))].

Definition upload_of (folder_path : string) (img : img_data) (ok : bool) : event :=
  UploadFile (url img) (disk_path_of img folder_path) ok.

(** What [YandexDiskAPI] makes of a status code. *)
Definition created (code : Z) : bool := bool_decide (code = 201 ∨ code = 409).
Definition accepted (code : Z) : bool := bool_decide (code = 202).

(** The URL that [get_breed_image] requests. *)
Definition random_image_url (b : string) (s : option string) : string :=
  if truthy s
  then base_url +:+ "/breed/" +:+ b +:+ "/" +:+ opt_str s +:+ "/images/random"
  else base_url +:+ "/breed/" +:+ b +:+ "/images/random".

(** The filename rule in the spec's words: [{breed}_{sub_breed}_{basename}]
    when a sub-breed is present, [{breed}_{basename}] otherwise.  A
    sub-breed is present when it is a non-empty string. *)
Definition spec_filename (b : string) (s : option string) (basename : string)
    : string :=
  match s with
  | Some (String c s') => b +:+ "_" +:+ String c s' +:+ "_" +:+ basename
  | _ => b +:+ "_" +:+ basename
  end.


(** ** The events and records of the loops

    The loops of the orchestrator, summarised by the events they add to the
    trace and the records they add to [self.results]. *)

(** The candidate that the orchestrator keeps from one answer of
    [get_breed_image]: an answer that is not a non-empty URL is skipped. *)
Definition candidate_of (b : string) (q : option string)
    (r : outcome (option string)) : option img_data :=
  match r with
  | Return (Some u) => if Str.truthy u then Some (ImgData u b q) else None
  | _ => None
  end.

(** The [sub_breed] arguments of the calls of [get_breed_image] for a breed:
    one per sub-breed, or a single call without one. *)
Definition queries (sub_breeds : list string) : list (option string) :=
  match sub_breeds with
  | [] => [None]
  | _ :: _ => Some <$> sub_breeds
  end.

Definition resolutions (b : string) (qs : list (option string))
    (rs : list (outcome (option string))) : list event :=
  zip_with (GetBreedImage b) qs rs.

Definition candidates (b : string) (qs : list (option string))
    (rs : list (outcome (option string))) : list img_data :=
  omap id (zip_with (candidate_of b) qs rs).

Definition returns {A} (r : outcome A) : Prop :=
  match r with Return _ => True | Raise _ => False end.

Definition folder_of (b : string) : string := "/PY-130(API)/dog_images/" +:+ b.

(** One call of [download_breed_images]: the folder is refused and the
    breed is skipped; or a resolution raises and ends the call before any
    upload; or every resolution returns and every candidate is uploaded and
    recorded; or every resolution returns, the first candidates are uploaded
    and recorded, and [urlparse] raises on the URL of the next one. *)
Inductive breed_trace (b : string) (sub_breeds : list string)
  : outcome unit → list event → list (dict pyval) → Prop :=
| breed_skipped :
    breed_trace b sub_breeds (Return tt) [CreateFolder (folder_of b) false] []
| breed_raised rs e :
    (length rs ≤ length (queries sub_breeds))%nat →
    last rs = Some (Raise e) →
    breed_trace b sub_breeds (Raise e)
      (CreateFolder (folder_of b) true :: resolutions b (queries sub_breeds) rs) []
| breed_done rs oks :
    length rs = length (queries sub_breeds) →
    Forall returns rs →
    length oks = length (candidates b (queries sub_breeds) rs) →
    breed_trace b sub_breeds (Return tt)
      (CreateFolder (folder_of b) true
       :: resolutions b (queries sub_breeds) rs
       ++ zip_with (upload_of (folder_of b)) (candidates b (queries sub_breeds) rs) oks)
      (zip_with (result_of (folder_of b)) (candidates b (queries sub_breeds) rs) oks)
| breed_rejected rs oks :
    length rs = length (queries sub_breeds) →
    Forall returns rs →
    (length oks < length (candidates b (queries sub_breeds) rs))%nat →
    breed_trace b sub_breeds (Raise ValueError)
      (CreateFolder (folder_of b) true
       :: resolutions b (queries sub_breeds) rs
       ++ zip_with (upload_of (folder_of b)) (candidates b (queries sub_breeds) rs) oks)
      (zip_with (result_of (folder_of b)) (candidates b (queries sub_breeds) rs) oks).

(** The loop over the selected breeds: it stops at the first call that
    raises. *)
Inductive breeds_trace
  : list (string * list string) → outcome unit → list event → list (dict pyval) → Prop :=
| breeds_nil : breeds_trace [] (Return tt) [] []
| breeds_raise b subs rest e evs recs :
    breed_trace b subs (Raise e) evs recs →
    breeds_trace ((b, subs) :: rest) (Raise e) evs recs
| breeds_cons b subs rest out evs recs evs' recs' :
    breed_trace b subs (Return tt) evs recs →
    breeds_trace rest out evs' recs' →
    breeds_trace ((b, subs) :: rest) out (evs ++ evs') (recs ++ recs').

(** ** The events and records of [run] *)

Definition root_folder : string := "/PY-130(API)".
Definition images_folder : string := "/PY-130(API)/dog_images".
Definition manifest : string := "download_results.json".

(** The trace of a run that reached the catalog listing, which ended
    with [r]. *)
Definition prelude (r : outcome (dict catalog_value)) : list event :=
  [CreateFolder root_folder true; CreateFolder images_folder true;
   GetAllBreeds r].

(** The breeds that [run] selects from the listing [m]: the requested breed
    when there is one, every breed otherwise. *)
Definition selection (target_breed : option string) (m : dict (list string))
    (items : list (string * list string)) : Prop :=
  if truthy target_breed
  then ∃ subs, Dict.get (opt_str target_breed) m = Some subs
               ∧ items = [(opt_str target_breed, subs)]
  else items = Dict.items m.

(** The ways in which [run] ends, with its trace, its records and the files
    it leaves, from a fresh orchestrator and the files [fs]. *)
Inductive run_trace (target_breed : option string) (fs : gmap string string)
  : outcome unit → list event → list (dict pyval) → gmap string string → Prop :=
| run_no_root :
    run_trace target_breed fs (Return tt) [CreateFolder root_folder false] [] fs
| run_no_images :
    run_trace target_breed fs (Return tt)
      [CreateFolder root_folder true; CreateFolder images_folder false] [] fs
| run_catalog_fault e :
    run_trace target_breed fs (Raise e) (prelude (Raise e)) [] fs
| run_no_catalog data :
    data = [] ∨ Dict.get "message" data = None →
    run_trace target_breed fs (Return tt) (prelude (Return data)) [] fs
| run_not_found data breeds :
    Dict.get "message" data = Some breeds →
    truthy target_breed = true →
    match breeds with
    | Breeds m => Dict.get (opt_str target_breed) m = None
    | Text s => Str.contains s (opt_str target_breed) = false
    end →
    run_trace target_breed fs (Return tt) (prelude (Return data)) [] fs
| run_text_subscript data s :
    Dict.get "message" data = Some (Text s) →
    truthy target_breed = true →
    Str.contains s (opt_str target_breed) = true →
    run_trace target_breed fs (Raise TypeError) (prelude (Return data)) [] fs
| run_text_items data s :
    Dict.get "message" data = Some (Text s) →
    truthy target_breed = false →
    run_trace target_breed fs (Raise AttributeError) (prelude (Return data)) [] fs
| run_breeds_fault data m items e evs recs :
    Dict.get "message" data = Some (Breeds m) →
    selection target_breed m items →
    breeds_trace items (Raise e) evs recs →
    run_trace target_breed fs (Raise e) (prelude (Return data) ++ evs) recs fs
| run_finalized data m items evs recs :
    Dict.get "message" data = Some (Breeds m) →
    selection target_breed m items →
    breeds_trace items (Return tt) evs recs →
    run_trace target_breed fs (Return tt)
      (prelude (Return data) ++ evs ++ [WriteFile manifest (Json.dump recs)]) recs
      (<[manifest := Json.dump recs]> fs).

(** The trace of a run that stopped before the loop over the breeds. *)
Definition aborted (evs : list event) : Prop :=
  evs = [CreateFolder root_folder false]
  ∨ evs = [CreateFolder root_folder true; CreateFolder images_folder false]
  ∨ ∃ data, evs = prelude data.

(** ** Records and events of a breed *)

#[global] Instance pyval_eq_dec : EqDecision pyval.
Proof. solve_decision. Defined.

(** [r] is a record of breed [b]. *)
Definition record_for (b : string) (r : dict pyval) : Prop :=
  Dict.get "breed" r = Some (PStr b).

#[global] Instance record_for_dec b r : Decision (record_for b r).
Proof. unfold record_for. apply _. Defined.

(** An answer of [get_breed_image] that the orchestrator takes as a
    candidate: a non-empty URL. *)
Definition resolved (r : outcome (option string)) : Prop :=
  ∃ u, r = Return (Some u) ∧ u ≠ EmptyString.

(** The events of a call of [download_breed_images] for [b]. *)
Definition breed_event (b : string) (e : event) : Prop :=
  match e with
  | CreateFolder p _ => p = folder_of b
  | GetBreedImage b' _ _ => b' = b
  | UploadFile _ _ _ => True
  | GetAllBreeds _ | WriteFile _ _ => False
  end.

(** An upload request, and the record that goes with it: the record has the
    URL and the destination of the request, and the status that the answer
    gave. *)
Definition is_upload (e : event) : Prop :=
  match e with
  | UploadFile _ _ _ => True
  | _ => False
  end.

#[global] Instance is_upload_dec e : Decision (is_upload e).
Proof. destruct e; simpl; apply _. Defined.

Definition records_upload (e : event) (r : dict pyval) : Prop :=
  match e with
  | UploadFile u p ok =>
      Dict.get "original_url" r = Some (PStr u)
      ∧ Dict.get "disk_path" r = Some (PStr p)
      ∧ Dict.get "status" r = Some (PStr (if ok then "success" else "error"))
  | _ => False
  end.

(** ** Properties of runs *)

(** [m] keeps every record that [self.results] holds when it starts, in
    place and unchanged, whatever it returns or raises. *)
Definition keeps_results (W : Type) {A} (m : M (W := W) A) : Prop :=
  ∀ st, results st `prefix_of` results (m st).2.

(** The listing of the run is a dict: no breed occurs twice in it. *)
Definition listing_is_dict (evs : list event) : Prop :=
  ∀ data m,
    GetAllBreeds (Return data) ∈ evs →
    Dict.get "message" data = Some (Breeds m) →
    NoDup (Dict.keys m).

(** The run wrote its results to the manifest as its last step. *)
Definition finalized {W} (fs : gmap string string) (st : state (W := W)) : Prop :=
  last (trace st) = Some (WriteFile manifest (Json.dump (results st)))
  ∧ files st = <[manifest := Json.dump (results st)]> fs.

(** Partial failure isolation as the spec has it: in a run in which the
    folder of [A] was refused and the folder of [B] was created, there is no
    record for [A], every candidate resolved for [B] has its record, and the
    run reaches Finalize. *)
Definition partial_failure_isolation {W} (net : Net W)
    (target_breed : option string) (w : W) (fs : gmap string string)
    (A B : string) : Prop :=
  let st1 := (run net target_breed (init w fs)).2 in
  listing_is_dict (trace st1) →
  CreateFolder ("/PY-130(API)/dog_images/" +:+ A) false ∈ trace st1 →
  CreateFolder ("/PY-130(API)/dog_images/" +:+ B) true ∈ trace st1 →
  filter (record_for A) (results st1) = []
  ∧ (∀ q u, GetBreedImage B q (Return (Some u)) ∈ trace st1 → u ≠ EmptyString →
       ∃ r, r ∈ results st1
            ∧ Dict.get "breed" r = Some (PStr B)
            ∧ Dict.get "sub_breed" r = Some (opt_val q)
            ∧ Dict.get "original_url" r = Some (PStr u))
  ∧ finalized fs st1.

(** The run passed Init, CatalogFetch and BreedSelection: both root folders
    were created, the listing holds a breed mapping, and the requested
    breed, if any, is in it. *)
Definition reaches_per_breed (target_breed : option string) (evs : list event)
    : Prop :=
  ∃ data m,
    prelude (Return data) `prefix_of` evs
    ∧ Dict.get "message" data = Some (Breeds m)
    ∧ (truthy target_breed = true → is_Some (Dict.get (opt_str target_breed) m)).

(** The empty manifest as the claim has it: a run that passed the first
    three stages and produced no record wrote [[]] to the manifest, over
    whatever file was there. *)
Definition empty_manifest_at_finalize {W} (net : Net W)
    (target_breed : option string) (w : W) (fs : gmap string string) : Prop :=
  let st1 := (run net target_breed (init w fs)).2 in
  reaches_per_breed target_breed (trace st1) →
  results st1 = [] →
  last (trace st1) = Some (WriteFile "download_results.json" "[]")
  ∧ files st1 = <["download_results.json" := "[]"]> fs.

(** The record rule as the claim has it: every call of
    [download_single_image] appends exactly one record. *)
Definition one_record_per_call {W} (net : Net W) : Prop :=
  ∀ img folder_path st,
    ∃ r, results (download_single_image net img folder_path st).2
         = results st ++ [r].

(** Completeness as the claim has it: in a run whose listing maps [b] to
    the sub-breeds [subs], with the folder of [b] created and a non-empty
    URL returned by every image query for [b], the results hold one record
    of [b] per sub-breed, and one when [b] has none. *)
Definition completeness {W} (net : Net W)
    (target_breed : option string) (w : W) (fs : gmap string string)
    (b : string) : Prop :=
  let st1 := (run net target_breed (init w fs)).2 in
  ∀ data m subs,
    GetAllBreeds (Return data) ∈ trace st1 →
    Dict.get "message" data = Some (Breeds m) →
    NoDup (Dict.keys m) →
    Dict.get b m = Some subs →
    CreateFolder ("/PY-130(API)/dog_images/" +:+ b) true ∈ trace st1 →
    (∀ q r, GetBreedImage b q r ∈ trace st1 →
            ∃ u, r = Return (Some u) ∧ u ≠ EmptyString) →
    length (filter (record_for b) (results st1))
    = match subs with [] => 1%nat | _ :: _ => length subs end.

(** The fatal abort as the claim has it: in a run whose listing returned an
    empty mapping, be it the empty dict or a payload whose breed mapping is
    empty, no record is created and no manifest is written. *)
Definition abort_on_empty_mapping {W} (net : Net W)
    (target_breed : option string) (w : W) (fs : gmap string string) : Prop :=
  let st1 := (run net target_breed (init w fs)).2 in
  ∀ data,
    GetAllBreeds (Return data) ∈ trace st1 →
    data = [] ∨ Dict.get "message" data = Some (Breeds []) →
    results st1 = []
    ∧ (∀ n c, WriteFile n c ∉ trace st1)
    ∧ files st1 !! "download_results.json" = fs !! "download_results.json".

(** ** Concrete services *)

Module Scenario.

(** A library without a check of the bracketed host, as Python has it
    before 3.11.4, and whose [_checknetloc] passes every authority.  No URL
    of the scenarios has an authority with both brackets or outside ASCII:
    the two fields are not consulted. *)
Definition stdlib : Lib := {|
  check_bracketed_netloc := λ _, true;
  checknetloc := λ _, true
|}.

(** Services without a state of their own: the answers depend on the
    request only. *)
Definition service (folder_code : string → Z) (upload_code : string → Z)
    (listing : response (dict catalog_value))
    (image : string → response (dict string)) : Net unit := {|
  put := λ path w, (folder_code path, w);
  post := λ path file_url w, (upload_code path, w);
  get_breeds := λ url w, (listing, w);
  get_image := λ url w, (image url, w);
  urllib := stdlib
|}.

Definition husky_jpg : string :=
  "https://images.dog.ceo/breeds/husky/n02110063_8514.jpg".

(** The catalog: [akita] has no sub-breeds, [husky] has two. *)
Definition catalog : dict (list string) :=
  [("akita", []); ("husky", ["siberian"; "alaskan"])].

Definition payload : dict catalog_value :=
  [("message", Breeds catalog); ("status", Text "success")].

Definition listing : response (dict catalog_value) :=
  Response 200 (Some payload).

Definition image_ok : response (dict string) :=
  Response 200 (Some [("message", husky_jpg); ("status", "success")]).

(** A success response whose payload has no status marker. *)
Definition image_no_status : response (dict string) :=
  Response 200 (Some [("message", husky_jpg)]).

(** A success response whose body is not a JSON document. *)
Definition image_not_json : response (dict string) :=
  Response 200 None.

(** The folder of [akita] is refused, every other one is created. *)
Definition folder_code (path : string) : Z :=
  if String.eqb path "/PY-130(API)/dog_images/akita" then 500 else 201.

(** Every request is answered well, but the folder of [akita]. *)
Definition akita_refused : Net unit :=
  service folder_code (λ _, 202) listing (λ _, image_ok).

(** As [akita_refused], and the body of the answer for [husky/alaskan] is
    not a JSON document. *)
Definition alaskan_garbled : Net unit :=
  service folder_code (λ _, 202) listing
    (λ url, if String.eqb url "https://dog.ceo/api/breed/husky/alaskan/images/random"
            then image_not_json else image_ok).

(** Every folder is created; the bodies of the image answers are not JSON
    documents. *)
Definition images_garbled : Net unit :=
  service (λ _, 201) (λ _, 202) listing (λ _, image_not_json).

(** Every folder is created; the payloads of the image answers have no
    status marker. *)
Definition images_unmarked : Net unit :=
  service (λ _, 201) (λ _, 202) listing (λ _, image_no_status).

(** The catalog service is down. *)
Definition catalog_down : Net unit :=
  service (λ _, 201) (λ _, 202) (Response 503 None) (λ _, image_ok).

(** The storage service accepts no upload. *)
Definition uploads_rejected : Net unit :=
  service (λ _, 201) (λ _, 507) listing (λ _, image_ok).

(** A URL whose authority opens a bracket and does not close it:
    [urlparse] raises [ValueError] on it, whatever the version of the
    library. *)
Definition bracket_jpg : string :=
  "https://[images.dog.ceo/breeds/husky/n02110063_8514.jpg".

(** Every folder is created; the catalog answers every image query with
    [bracket_jpg]. *)
Definition images_unparsable : Net unit :=
  service (λ _, 201) (λ _, 202) listing
    (λ _, Response 200 (Some [("message", bracket_jpg); ("status", "success")])).

(** The catalog answers the listing with a breed mapping that is empty. *)
Definition catalog_empty : Net unit :=
  service (λ _, 201) (λ _, 202)
    (Response 200 (Some [("message", Breeds []); ("status", Text "success")]))
    (λ _, image_ok).

End Scenario.

#[global] Instance exn_eq_dec : EqDecision exn.
Proof. solve_decision. Defined.

#[global] Instance outcome_eq_dec {A} `{EqDecision A} : EqDecision (outcome A).
Proof. solve_decision. Defined.

#[global] Instance catalog_value_eq_dec : EqDecision catalog_value.
Proof. solve_decision. Defined.

#[global] Instance event_eq_dec : EqDecision event.
Proof. solve_decision. Defined.

(** ** Further vocabulary: the order of the calls, the faults, the records *)

(** The paths of the folder requests of a trace, in the order of the
    requests. *)
Definition folder_requests (evs : list event) : list string :=
  omap (λ e, match e with CreateFolder p _ => Some p | _ => None end) evs.

(** A call of [get_breed_image] for the breed [b]. *)
Definition is_query (b : string) (e : event) : Prop :=
  match e with
  | GetBreedImage b' _ _ => b' = b
  | _ => False
  end.


(** [m] raises nothing but exceptions in [P]. *)
Definition raises_only (W : Type) {A} (P : exn → Prop) (m : M (W := W) A) : Prop :=
  ∀ st e, (m st).1 = Raise e → P e.

(** The keys of a result dict, in insertion order. *)
Definition record_keys : list string :=
  ["breed"; "sub_breed"; "filename"; "original_url"; "disk_path"; "status"].

(** The shape of a record of a run: the six keys, a non-empty source URL,
    the destination in the folder of the record's breed, and one of the two
    status markers. *)
Definition well_formed (r : dict pyval) : Prop :=
  Dict.keys r = record_keys
  ∧ ∃ b f u,
      Dict.get "breed" r = Some (PStr b)
      ∧ Dict.get "filename" r = Some (PStr f)
      ∧ Dict.get "original_url" r = Some (PStr u)
      ∧ u ≠ EmptyString
      ∧ Dict.get "disk_path" r
        = Some (PStr (("/PY-130(API)/dog_images/" +:+ b) +:+ "/" +:+ f))
      ∧ (Dict.get "status" r = Some (PStr "success")
         ∨ Dict.get "status" r = Some (PStr "error")).

(** The [breed] and [sub_breed] fields of a record. *)
Definition record_key (r : dict pyval) : option pyval * option pyval :=
  (Dict.get "breed" r, Dict.get "sub_breed" r).

(** The [breed] and [sub_breed] fields of the records that a listing can
    give, in the order of the listing: for each breed, one per sub-breed, or
    one without a sub-breed. *)
Definition listing_keys (items : list (string * list string))
    : list (option pyval * option pyval) :=
  items ≫= λ item, (λ q, (Some (PStr item.1), Some (opt_val q))) <$> queries item.2.

(** ** The command line: [main]

    [main] reads the breed and the token with [input], which raises
    [EOFError] at the end of the input, and writes with [print].  The
    console is the lines still to be read and the pieces of text written so
    far.  [str.strip], [str.lower] and [str(e)] are Python's; the
    statements hold for whatever they return.  The token goes into the
    headers of every request of [YandexDiskAPI]: the network is given as it
    answers the requests that carry a token. *)

Inductive io_fault : Type := EOFError.

Record console : Type := Console {
  stdin : list string;
  stdout : list string
}.

(** How [main] ended: with the exception that escaped it, if any; with what
    console; and with how the run of the [DogImageDownloader] that it
    made ended and in which state, if it made one. *)
Record exit (S : Type) : Type := Exit {
  uncaught : option io_fault;
  console_after : console;
  downloader : option (outcome unit * S)
}.
Arguments Exit {S} _ _ _.
Arguments uncaught {S} _.
Arguments console_after {S} _.
Arguments downloader {S} _.

(** [s * n] *)
Fixpoint times (s : string) (n : nat) : string :=
  match n with
  | O => EmptyString
  | S n' => s +:+ times s n'
  end.

(** [print(text)] *)
Definition print (text : string) (c : console) : console :=
  Console (stdin c) (stdout c ++ [text +:+ Str.nl]).

(** [input(prompt)] *)
Definition input (prompt : string) (c : console) : (io_fault + string) * console :=
  match stdin c with
  | line :: rest => (inr line, Console rest (stdout c ++ [prompt]))
  | [] => (inl EOFError, Console [] (stdout c ++ [prompt]))
  end.

(** What [main] prints when the run returns, and when it raises. *)
Definition success_report (breed : string) : list string :=
  [(Str.nl +:+ "✅ Программа успешно завершена!") +:+ Str.nl;
   ("Изображения породы '" +:+ breed
      +:+ "' сохранены в папке: /PY-130(API)/dog_images/" +:+ breed +:+ "/")
     +:+ Str.nl;
   "Результаты сохранены в файле: download_results.json" +:+ Str.nl;
   "Логи сохранены в файле: dog_downloader.log" +:+ Str.nl].

Definition failure_report (text : string) : list string :=
  [(Str.nl +:+ "❌ Произошла ошибка: " +:+ text) +:+ Str.nl;
   "Проверьте корректность токена и подключение к интернету." +:+ Str.nl].

Section Cli.

Context {W : Type}.
Variable strip : string → string.
Variable lower : string → string.
Variable str : exn → string.
Variable net : string → Net W.

Definition main (c : console) (w : W) (fs : gmap string string)
    : exit (state (W := W)) :=
  let c := print (times "=" 50) c in
  let c := print "Программа резервного копирования изображений собак" c in
  let c := print (times "=" 50) c in
  match input "Введите породу собаки: " c with
  | (inl e, c) => Exit (Some e) c None
  | (inr line, c) =>
      let breed := lower (strip line) in
      if negb (Str.truthy breed)
      then Exit None (print "Ошибка: Порода не может быть пустой!" c) None
      else
        match input "Введите токен Яндекс.Диска: " c with
        | (inl e, c) => Exit (Some e) c None
        | (inr line, c) =>
            let token := strip line in
            if negb (Str.truthy token)
            then Exit None (print "Ошибка: Токен не может быть пустым!" c) None
            else
              let c := print (Str.nl +:+ "Запуск программы для породы: " +:+ breed) c in
              let c := print ("Начинаем загрузку изображений..." +:+ Str.nl) c in
              match run (net token) (Some breed) (init w fs) with
              | (Return tt, st) =>
                  let c := print (Str.nl +:+ "✅ Программа успешно завершена!") c in
                  let c := print ("Изображения породы '" +:+ breed
                                  +:+ "' сохранены в папке: /PY-130(API)/dog_images/"
                                  +:+ breed +:+ "/") c in
                  let c := print "Результаты сохранены в файле: download_results.json" c in
                  let c := print "Логи сохранены в файле: dog_downloader.log" c in
                  Exit None c (Some (Return tt, st))
              | (Raise e, st) =>
                  let c := print (Str.nl +:+ "❌ Произошла ошибка: " +:+ str e) c in
                  let c := print "Проверьте корректность токена и подключение к интернету." c in
                  Exit None c (Some (Raise e, st))
              end
        end
  end.

End Cli.

(** ** Further concrete services *)

Module Cases.
Import Scenario.

(** The storage service refuses every request, as it does for a token that
    it does not know. *)
Definition token_refused : Net unit :=
  service (λ _, 401) (λ _, 401) listing (λ _, image_ok).

(** The root folder exists, the folder of the images is refused. *)
Definition images_refused : Net unit :=
  service (λ path, if String.eqb path "/PY-130(API)" then 409 else 403)
    (λ _, 202) listing (λ _, image_ok).

(** The listing is answered with a payload that has no [message]. *)
Definition listing_unmarked : Net unit :=
  service (λ _, 201) (λ _, 202)
    (Response 200 (Some [("status", Text "error")])) (λ _, image_ok).

(** Every folder is created and every upload accepted; the body of the
    answer for [husky/alaskan] is not a JSON document. *)
Definition alaskan_broken : Net unit :=
  service (λ _, 201) (λ _, 202) listing
    (λ url, if String.eqb url "https://dog.ceo/api/breed/husky/alaskan/images/random"
            then image_not_json else image_ok).

(** The catalog has no image for [husky/alaskan]. *)
Definition alaskan_missing : Net unit :=
  service (λ _, 201) (λ _, 202) listing
    (λ url, if String.eqb url "https://dog.ceo/api/breed/husky/alaskan/images/random"
            then Response 404 (Some [("status", "error"); ("message", "Breed not found")])
            else image_ok).

(** The services as they answer a client by its token: the storage
    service knows the token [secret] only. *)
Definition by_token (token : string) : Net unit :=
  if String.eqb token "secret" then akita_refused else token_refused.

(** [str.isspace] for an ASCII character. *)
Definition ascii_space (c : ascii) : bool :=
  ((9 <=? Str.code c) && (Str.code c <=? 13))
  || ((28 <=? Str.code c) && (Str.code c <=? 32)).

Fixpoint rstrip (p : ascii → bool) (s : string) : string :=
  match s with
  | EmptyString => EmptyString
  | String c s' =>
      match rstrip p s' with
      | EmptyString => if p c then EmptyString else String c EmptyString
      | t => String c t
      end
  end.

(** [str.strip] and [str.lower] on ASCII text. *)
Definition strip (s : string) : string := rstrip ascii_space (Str.lstrip ascii_space s).
Definition lower (s : string) : string := Str.map Url.lower s.

(** [str(e)], for a key without quotes and an empty body. *)
Definition str (e : exn) : string :=
  match e with
  | KeyError key => "'" +:+ key +:+ "'"
  | TypeError => "string indices must be integers, not 'str'"
  | AttributeError => "'str' object has no attribute 'items'"
  | JSONDecodeError => "Expecting value: line 1 column 1 (char 0)"
  | ValueError => "Invalid IPv6 URL"
  end.

End Cases.

(** * Properties *)

(** ** The path of a URL and its last segment *)

Module UrlFacts.
Import Url.

#[local] Arguments Ascii.eqb : simpl never.

Lemma app_cons c s t : String c s +:+ t = String c (s +:+ t).
Proof. reflexivity. Qed.


Lemma mem_app c s t : Str.mem c (s +:+ t) = Str.mem c s || Str.mem c t.
Proof.
  induction s as [|d s IH]; simpl; [done|].
  rewrite IH. by rewrite orb_assoc.
Qed.







(** [basename] of a path that ends with a slash is empty. *)
Lemma basename_trailing_slash q : basename (q +:+ "/") = EmptyString.
Proof.
  induction q as [|c q IH]; simpl; [done|].
  rewrite mem_app. change (Str.mem "/" "/") with true.
  by rewrite !orb_true_r.
Qed.








(** *** Appending a query or a fragment does not change the path *)


Lemma filter_app p u v : Str.filter p (u +:+ v) = Str.filter p u +:+ Str.filter p v.
Proof.
  induction u as [|c u IH]; [done|].
  rewrite ?app_cons. simpl. destruct (p c); [|done]. by rewrite app_cons, IH.
Qed.












(** *** The authority and its checks *)

(** [urlparse] either rejects the authority of [url] or gives the path of
    [url]. *)
Lemma urlparse_path_eq lib url :
  urlparse_path lib url
  = if netloc_accepted lib (netloc url) then Some (path url) else None.
Proof.
  unfold urlparse_path, urlsplit, path, split, netloc.
  destruct (split_scheme _) as [scheme u1].
  destruct (split_netloc u1) as [n u2]. simpl.
  by destruct (netloc_accepted lib n).
Qed.

Lemma urlparse_path_some lib url p :
  urlparse_path lib url = Some p → p = path url.
Proof.
  rewrite urlparse_path_eq. destruct (netloc_accepted _ _); [|done].
  by intros [= <-].
Qed.



End UrlFacts.

(** ** What each method does to the state *)

Section Steps.

Context {W : Type} (net : Net W).

Lemma create_folder_eq folder_path st :
  create_folder net folder_path st =
  let code_w := put net folder_path (world st) in
  (Return (created code_w.1),
   State code_w.2 (results st) (files st)
     (trace st ++ [CreateFolder folder_path (created code_w.1)])).
Proof.
  unfold create_folder, bind, requests_put, emit, ret, created.
  destruct (put net folder_path (world st)) as [code w]; simpl.
  destruct (Z.eqb_spec code 201) as [->|H1]; [done|].
  destruct (Z.eqb_spec code 409) as [->|H2]; [done|].
  rewrite bool_decide_eq_false_2; [done | intros [?|?]; done].
Qed.

Lemma upload_file_from_url_eq file_url disk_path st :
  upload_file_from_url net file_url disk_path st =
  let code_w := post net disk_path file_url (world st) in
  (Return (accepted code_w.1),
   State code_w.2 (results st) (files st)
     (trace st ++ [UploadFile file_url disk_path (accepted code_w.1)])).
Proof.
  unfold upload_file_from_url, bind, requests_post, emit, ret, accepted.
  destruct (post net disk_path file_url (world st)) as [code w]; simpl.
  destruct (Z.eqb_spec code 202) as [->|H1]; [done|].
  by rewrite bool_decide_eq_false_2.
Qed.

Lemma extract_filename_from_url_eq url st :
  extract_filename_from_url net url st =
  (match Url.urlparse_path (urllib net) url with
   | Some path => Return (Url.basename path)
   | None => Raise ValueError
   end, st).
Proof.
  unfold extract_filename_from_url. by destruct (Url.urlparse_path _ _).
Qed.

(** [download_single_image] raises before the request when [urlparse]
    rejects the URL; it requests the upload and appends the record
    otherwise. *)
Lemma download_single_image_eq img folder_path st :
  download_single_image net img folder_path st =
  match Url.urlparse_path (urllib net) (url img) with
  | None => (Raise ValueError, st)
  | Some _ =>
      let code_w := post net (disk_path_of img folder_path) (url img) (world st) in
      (Return tt,
       State code_w.2
         (results st ++ [result_of folder_path img (accepted code_w.1)])
         (files st)
         (trace st ++ [upload_of folder_path img (accepted code_w.1)]))
  end.
Proof.
  unfold download_single_image, bind. rewrite extract_filename_from_url_eq.
  destruct (Url.urlparse_path _ _) as [p|] eqn:Hp; [|done].
  apply UrlFacts.urlparse_path_some in Hp as ->.
  rewrite upload_file_from_url_eq. simpl.
  unfold result_of, upload_of, disk_path_of, filename_of.
  by destruct (accepted _), (truthy _).
Qed.

Lemma get_all_breeds_eq st :
  ∃ r w,
    get_all_breeds net st =
    (r, State w (results st) (files st) (trace st ++ [GetAllBreeds r])).
Proof.
  unfold get_all_breeds, traced, bind, requests_get_breeds, response_json.
  destruct (get_breeds net _ (world st)) as [r w]; simpl.
  destruct (status_code r =? 200); [|by eauto].
  destruct (json r); by eauto.
Qed.

Lemma get_breed_image_eq breed sub_breed st :
  ∃ r w,
    get_breed_image net breed sub_breed st =
    (r, State w (results st) (files st)
          (trace st ++ [GetBreedImage breed sub_breed r])).
Proof.
  unfold get_breed_image, traced, bind, requests_get_image.
  destruct (get_image net _ (world st)) as [r w]; simpl.
  destruct (status_code r =? 200); [|by eauto].
  unfold response_json. destruct (json r) as [data|]; simpl; [|by eauto].
  unfold subscript at 1.
  destruct (Dict.get "status" data); simpl; [|by eauto].
  destruct (String.eqb _ _); [|by eauto].
  unfold subscript. destruct (Dict.get "message" data); simpl; by eauto.
Qed.

End Steps.

Section Loops.

Context {W : Type} (net : Net W).

(** The loop over the candidates uploads and records them in order, up to
    the first one whose URL [urlparse] rejects. *)
Lemma for_images_eq imgs folder_path st :
  ∃ oks w out,
    for_images net imgs folder_path st =
    (out,
     State w (results st ++ zip_with (result_of folder_path) imgs oks)
       (files st)
       (trace st ++ zip_with (upload_of folder_path) imgs oks))
    ∧ match out with
      | Return _ => length oks = length imgs
      | Raise e => e = ValueError ∧ (length oks < length imgs)%nat
      end.
Proof.
  revert st. induction imgs as [|img imgs IH]; intros st; simpl.
  - exists [], (world st), (Return tt). split; [|done].
    unfold ret. rewrite !app_nil_r. by destruct st.
  - unfold bind. rewrite download_single_image_eq.
    destruct (Url.urlparse_path _ _) as [p|].
    + simpl. destruct (post net _ _ _) as [code w1]; simpl.
      edestruct IH as (oks & w & out & -> & Hout).
      exists (accepted code :: oks), w, out. simpl.
      split; [by rewrite <- !app_assoc|].
      destruct out as [[]|e]; [by rewrite Hout|].
      destruct Hout as [-> Hlt]. split; [done|lia].
    + exists [], (world st), (Raise ValueError). simpl. split; [|split; [done|lia]].
      rewrite !app_nil_r. by destruct st.
Qed.

Lemma for_sub_breeds_eq b subs acc st :
  ∃ rs w out,
    for_sub_breeds net b subs acc st =
    (out, State w (results st) (files st)
            (trace st ++ resolutions b (Some <$> subs) rs)) ∧
    (length rs ≤ length subs)%nat ∧
    match out with
    | Return imgs =>
        length rs = length subs ∧ Forall returns rs ∧
        imgs = acc ++ candidates b (Some <$> subs) rs
    | Raise e => last rs = Some (Raise e)
    end.
Proof.
  revert acc st. induction subs as [|s subs IH]; intros acc st; simpl.
  - exists [], (world st), (Return acc). unfold ret, resolutions, candidates.
    simpl. rewrite !app_nil_r. destruct st; simpl. repeat split; auto.
  - unfold bind.
    destruct (get_breed_image_eq net b (Some s) st) as (r & w1 & ->).
    destruct r as [image_url|e].
    + match goal with |- context [for_sub_breeds net b subs ?a ?s] =>
        destruct (IH a s) as (rs & w & out & -> & Hlen & Hout) end.
      exists (Return image_url :: rs), w, out. simpl.
      rewrite <- app_assoc. split; [done|]. split; [lia|].
      destruct out as [imgs|e]; [|by destruct rs].
      destruct Hout as (Hl & Hr & ->).
      split; [by rewrite Hl|]. split; [by constructor|].
      unfold candidates; simpl. unfold truthy, opt_str.
      destruct image_url as [u|]; simpl; [|done].
      destruct (Str.truthy u); simpl; [|done]. by rewrite <- app_assoc.
    + exists [Raise e], w1, (Raise e). simpl.
      unfold resolutions. rewrite zip_with_nil_r.
      split; [done|]. split; [lia|done].
Qed.

Lemma download_breed_images_eq b subs st :
  ∃ out evs recs w,
    download_breed_images net b subs st =
    (out, State w (results st ++ recs) (files st) (trace st ++ evs)) ∧
    breed_trace b subs out evs recs.
Proof.
  unfold download_breed_images, bind. rewrite create_folder_eq.
  destruct (put net _ (world st)) as [code w0]; simpl.
  destruct (created code) eqn:Hc; simpl.
  2:{ exists (Return tt), [CreateFolder (folder_of b) false], [], w0.
      unfold ret. rewrite app_nil_r. split; [done|]. constructor. }
  assert (Hloop : ∀ rs st0,
    length rs = length (queries subs) → Forall returns rs →
    ∃ out evs recs w,
      for_images net (candidates b (queries subs) rs)
        ("/PY-130(API)/dog_images/" +:+ b) st0
      = (out, State w (results st0 ++ recs) (files st0) (trace st0 ++ evs))
      ∧ breed_trace b subs out
          (CreateFolder (folder_of b) true
           :: resolutions b (queries subs) rs ++ evs) recs).
  { intros rs st0 Hlen Hret.
    destruct (for_images_eq (candidates b (queries subs) rs)
                ("/PY-130(API)/dog_images/" +:+ b) st0)
      as (oks & w' & out & -> & Hout).
    eexists out, _, _, w'. split; [reflexivity|].
    destruct out as [[]|e].
    - by apply (breed_done b subs rs oks).
    - destruct Hout as [-> Hlt]. by apply (breed_rejected b subs rs oks). }
  destruct subs as [|s subs].
  - match goal with |- context [get_breed_image net b None ?s0] =>
      destruct (get_breed_image_eq net b None s0) as (r & w1 & ->) end.
    destruct r as [a|e]; simpl.
    + unfold ret.
      assert (Hc' : (if truthy a then [ImgData (opt_str a) b None] else [])
                    = candidates b (queries []) [Return a]).
      { unfold candidates, truthy, opt_str; simpl.
        destruct a as [u|]; simpl; [|done]. by destruct (Str.truthy u). }
      rewrite Hc'.
      match goal with |- context [for_images net _ _ ?s0] =>
        destruct (Hloop [Return a] s0) as (out & evs & recs & w' & -> & Hb) end;
        [done|by repeat constructor|].
      simpl. eexists out, _, recs, w'. split; [|exact Hb].
      simpl. by rewrite <- !app_assoc.
    + eexists (Raise e), _, [], w1. split.
      * rewrite app_nil_r, <- app_assoc. reflexivity.
      * by apply (breed_raised b [] [Raise e] e); simpl; [lia|].
  - match goal with |- context [for_sub_breeds net b ?l [] ?s0] =>
      destruct (for_sub_breeds_eq b l [] s0) as (rs & w & out & -> & Hlen & Hout) end.
    change (Some <$> s :: subs) with (queries (s :: subs)) in *.
    assert (Hq : length (queries (s :: subs)) = length (s :: subs)).
    { unfold queries. by rewrite length_fmap. }
    destruct out as [imgs|e].
    + destruct Hout as (Hl & Hr & ->). rewrite app_nil_l.
      match goal with |- context [for_images net _ _ ?s0] =>
        destruct (Hloop rs s0) as (out & evs & recs & w' & -> & Hb) end;
        [congruence|done|].
      simpl. eexists out, _, recs, w'. split; [|exact Hb].
      simpl. by rewrite <- !app_assoc.
    + eexists (Raise e), _, [], w. split.
      * simpl. rewrite app_nil_r, <- app_assoc. reflexivity.
      * apply (breed_raised b (s :: subs) rs e); [lia|done].
Qed.

Lemma for_breeds_eq items st :
  ∃ out evs recs w,
    for_breeds net items st =
    (out, State w (results st ++ recs) (files st) (trace st ++ evs)) ∧
    breeds_trace items out evs recs.
Proof.
  revert st. induction items as [|[b subs] items IH]; intros st; simpl.
  - exists (Return tt), [], [], (world st). unfold ret.
    rewrite !app_nil_r. destruct st. split; [done|constructor].
  - unfold bind.
    destruct (download_breed_images_eq b subs st) as (out & evs & recs & w & -> & Hb).
    destruct out as [[]|e].
    + edestruct IH as (out' & evs' & recs' & w' & -> & Hbs). simpl.
      exists out', (evs ++ evs'), (recs ++ recs'), w'.
      rewrite !app_assoc. split; [done|]. by econstructor.
    + exists (Raise e), evs, recs, w. split; [done|]. by constructor.
Qed.

End Loops.

Section Run.

Context {W : Type} (net : Net W).

#[local] Arguments Dict.get : simpl never.
#[local] Arguments Dict.truthy : simpl never.
#[local] Arguments Str.contains : simpl never.

Lemma run_eq target_breed w fs :
  ∃ out evs recs fs' w',
    run net target_breed (init w fs) = (out, State w' recs fs' evs) ∧
    run_trace target_breed fs out evs recs fs'.
Proof.
  unfold run, bind, init. rewrite create_folder_eq. simpl.
  destruct (put net _ w) as [c1 w1]; simpl.
  destruct (created c1); simpl;
    [|by eexists _, _, _, _, _; split; [reflexivity|constructor]].
  rewrite create_folder_eq. simpl.
  destruct (put net _ w1) as [c2 w2]; simpl.
  destruct (created c2); simpl;
    [|by eexists _, _, _, _, _; split; [reflexivity|constructor]].
  match goal with |- context [get_all_breeds net ?s0] =>
    destruct (get_all_breeds_eq net s0) as (r & w3 & ->) end.
  destruct r as [data|e]; simpl;
    [|by eexists _, _, _, _, _; split; [reflexivity|constructor]].
  set (d := data).
  destruct (Dict.truthy d) eqn:Htr; simpl.
  2:{ eexists _, _, _, _, _; split; [reflexivity|].
      apply (run_no_catalog _ _ d). left. by destruct data. }
  unfold Dict.has, subscript.
  destruct (Dict.get "message" d) as [breeds|] eqn:Hm; simpl.
  2:{ eexists _, _, _, _, _; split; [reflexivity|].
      apply (run_no_catalog _ _ d). by right. }
  destruct (truthy target_breed) eqn:Ht.
  - destruct breeds as [s|m]; simpl.
    + destruct (Str.contains s _) eqn:Hc; simpl.
      * eexists _, _, _, _, _; split; [reflexivity|].
        by apply (run_text_subscript _ _ d s).
      * eexists _, _, _, _, _; split; [reflexivity|].
        by apply (run_not_found _ _ d (Text s)).
    + unfold Dict.has, subscript.
      destruct (Dict.get (opt_str target_breed) m) as [v|] eqn:Hv; simpl.
      2:{ eexists _, _, _, _, _; split; [reflexivity|].
          by apply (run_not_found _ _ d (Breeds m)). }
      assert (Hsel : selection target_breed m [(opt_str target_breed, v)]).
      { unfold selection. rewrite Ht. eauto. }
      assert (Hv' : match v with
                    | [] => @ret W (list string) []
                    | _ :: _ => ret v
                    end = ret v) by by destruct v.
      rewrite Hv'. unfold ret at 1.
      match goal with |- context [download_breed_images net ?b ?l ?s0] =>
        destruct (download_breed_images_eq net b l s0)
          as (out & evs & recs & w' & -> & Hb) end.
      destruct out as [[]|e]; simpl.
      all: eexists _, _, _, _, _; (split; [reflexivity|]).
      * eapply (run_finalized _ _ d m) in Hsel; [exact Hsel|done|].
        rewrite <- (app_nil_r evs), <- (app_nil_r recs).
        by econstructor; [exact Hb|constructor].
      * eapply (run_breeds_fault _ _ d m); [done|exact Hsel|by constructor].
    - destruct breeds as [s|m]; simpl.
      + eexists _, _, _, _, _; split; [reflexivity|].
        by apply (run_text_items _ _ d s).
      + unfold breeds_items, ret; simpl.
        match goal with |- context [for_breeds net ?l ?s0] =>
          destruct (for_breeds_eq net l s0) as (out & evs & recs & w' & -> & Hb) end.
        assert (Hsel : selection target_breed m (Dict.items m)).
        { unfold selection. by rewrite Ht. }
        destruct out as [[]|e]; simpl.
        all: eexists _, _, _, _, _; (split; [reflexivity|]).
        * exact (run_finalized _ _ d m _ evs recs Hm Hsel Hb).
        * exact (run_breeds_fault _ _ d m _ e evs recs Hm Hsel Hb).
Qed.

End Run.

(** ** [self.results] only grows *)

Section Grows.

Context {W : Type} (net : Net W).

Lemma keeps_ret {A} (a : A) : keeps_results W (ret a).
Proof. intros st. done. Qed.

Lemma keeps_raise {A} e : keeps_results W (raise (A := A) e).
Proof. intros st. done. Qed.

Lemma keeps_bind {A B} (m : M A) (k : A → M B) :
  keeps_results W m → (∀ a, keeps_results W (k a)) → keeps_results W (bind m k).
Proof.
  intros Hm Hk st. unfold bind. specialize (Hm st).
  destruct (m st) as [[a|e] st']; simpl in *; [|done].
  etrans; [exact Hm|]. apply Hk.
Qed.

Lemma keeps_traced {A} ev (m : M A) : keeps_results W m → keeps_results W (traced ev m).
Proof.
  intros Hm st. unfold traced. specialize (Hm st).
  by destruct (m st) as [r st'].
Qed.

Lemma keeps_emit e : keeps_results W (emit e).
Proof. intros st. done. Qed.

Lemma keeps_subscript {V} (d : dict V) k : keeps_results W (subscript d k).
Proof. unfold subscript. destruct (Dict.get k d); [apply keeps_ret|apply keeps_raise]. Qed.

Lemma keeps_response_json {J} (r : response J) : keeps_results W (response_json r).
Proof. unfold response_json. destruct (json r); [apply keeps_ret|apply keeps_raise]. Qed.

Lemma keeps_requests_put p : keeps_results W (requests_put net p).
Proof. intros st. unfold requests_put. by destruct (put net p (world st)). Qed.

Lemma keeps_requests_post p u : keeps_results W (requests_post net p u).
Proof. intros st. unfold requests_post. by destruct (post net p u (world st)). Qed.

Lemma keeps_requests_get_breeds u : keeps_results W (requests_get_breeds net u).
Proof. intros st. unfold requests_get_breeds. by destruct (get_breeds net u (world st)). Qed.

Lemma keeps_requests_get_image u : keeps_results W (requests_get_image net u).
Proof. intros st. unfold requests_get_image. by destruct (get_image net u (world st)). Qed.

Ltac keeps :=
  repeat first
    [ apply keeps_ret | apply keeps_raise | apply keeps_emit
    | apply keeps_subscript | apply keeps_response_json
    | apply keeps_requests_put
    | apply keeps_requests_post | apply keeps_requests_get_breeds
    | apply keeps_requests_get_image | apply keeps_traced
    | apply keeps_bind; [|intros ?]
    | match goal with
      | |- keeps_results W (if ?b then _ else _) => destruct b
      | |- keeps_results W (match ?x with _ => _ end) => destruct x
      end ].

Lemma keeps_create_folder p : keeps_results W (create_folder net p).
Proof. unfold create_folder. keeps. Qed.

Lemma keeps_upload_file_from_url u p : keeps_results W (upload_file_from_url net u p).
Proof. unfold upload_file_from_url. keeps. Qed.

Lemma keeps_get_all_breeds : keeps_results W (get_all_breeds net).
Proof. unfold get_all_breeds. keeps. Qed.

Lemma keeps_get_breed_image b s : keeps_results W (get_breed_image net b s).
Proof. unfold get_breed_image. keeps. Qed.

Lemma keeps_download_single_image img folder_path :
  keeps_results W (download_single_image net img folder_path).
Proof.
  intros st. rewrite download_single_image_eq.
  destruct (Url.urlparse_path _ _); [|done]. simpl. by apply prefix_app_r.
Qed.

Lemma keeps_for_sub_breeds b subs acc : keeps_results W (for_sub_breeds net b subs acc).
Proof.
  revert acc. induction subs as [|s subs IH]; intros acc; simpl; [apply keeps_ret|].
  apply keeps_bind; [apply keeps_get_breed_image|]. intros ?. apply IH.
Qed.

Lemma keeps_for_images imgs folder_path : keeps_results W (for_images net imgs folder_path).
Proof.
  induction imgs as [|img imgs IH]; simpl; [apply keeps_ret|].
  apply keeps_bind; [apply keeps_download_single_image|]. intros ?. apply IH.
Qed.

Lemma keeps_download_breed_images b subs : keeps_results W (download_breed_images net b subs).
Proof.
  unfold download_breed_images.
  apply keeps_bind; [apply keeps_create_folder|]. intros ok.
  destruct (negb ok); [apply keeps_ret|].
  apply keeps_bind; [|intros ?; apply keeps_for_images].
  destruct subs; [|apply keeps_for_sub_breeds].
  apply keeps_bind; [apply keeps_get_breed_image|]. intros ?. apply keeps_ret.
Qed.

Lemma keeps_for_breeds items : keeps_results W (for_breeds net items).
Proof.
  induction items as [|[b subs] items IH]; simpl; [apply keeps_ret|].
  apply keeps_bind; [apply keeps_download_breed_images|]. intros ?. apply IH.
Qed.

Lemma keeps_save_results_to_json filename : keeps_results W (save_results_to_json filename).
Proof. intros st. done. Qed.

Lemma keeps_run target_breed : keeps_results W (run net target_breed).
Proof.
  unfold run.
  apply keeps_bind; [apply keeps_create_folder|]. intros ok1.
  destruct (negb ok1); [apply keeps_ret|].
  apply keeps_bind; [apply keeps_create_folder|]. intros ok2.
  destruct (negb ok2); [apply keeps_ret|].
  apply keeps_bind; [apply keeps_get_all_breeds|]. intros data.
  destruct (_ || _); [apply keeps_ret|].
  apply keeps_bind; [apply keeps_subscript|]. intros breeds.
  destruct (truthy target_breed).
  - apply keeps_bind; [destruct breeds; apply keeps_ret|]. intros found.
    destruct found; [|apply keeps_ret].
    apply keeps_bind;
      [destruct breeds; [apply keeps_raise|apply keeps_subscript]|].
    intros v. apply keeps_bind.
    { destruct v; [apply keeps_ret|].
      destruct breeds; [apply keeps_raise|apply keeps_subscript]. }
    intros subs. apply keeps_bind; [apply keeps_download_breed_images|].
    intros ?. apply keeps_save_results_to_json.
  - apply keeps_bind; [destruct breeds; [apply keeps_raise|apply keeps_ret]|].
    intros items. apply keeps_bind; [apply keeps_for_breeds|].
    intros ?. apply keeps_save_results_to_json.
Qed.

End Grows.

(** ** Filenames and destinations *)

Lemma filename_of_spec u b s :
  filename_of (ImgData u b s) = spec_filename b s (Url.basename (Url.path u)).
Proof. unfold filename_of. by destruct s as [[|c s]|]. Qed.

Lemma breed_trace_records b subs out evs recs :
  breed_trace b subs out evs recs →
  ∀ r, r ∈ recs →
    ∃ u q ok, r = result_of (folder_of b) (ImgData u b q) ok.
Proof.
  intros [|rs e Hlen Hlast|rs oks Hlen Hret Hoks|rs oks Hlen Hret Hoks] r Hr;
    [by apply elem_of_nil in Hr..| |].
  all: apply elem_of_zip_with in Hr as (img & ok & -> & Himg & _).
  all: unfold candidates in Himg.
  all: apply list_elem_of_omap in Himg as (c & Hc & Hsome); simpl in Hsome; subst c.
  all: apply elem_of_zip_with in Hc as (q & o & Hco & _ & _).
  all: unfold candidate_of in Hco.
  all: destruct o as [[u|]|]; try done; destruct (Str.truthy u); [|done].
  all: injection Hco as Heq; subst img; by exists u, q, ok.
Qed.




(** C6.  When the transfer request is not accepted (any status code but
    202), [download_single_image] still appends a record: it has exactly the
    keys [breed], [sub_breed], [filename], [original_url], [disk_path] and
    [status], its status is [error], and its URL and destination are those
    of the one upload request that was made.  The request is made for a URL
    that [urlparse] accepts. *)
Theorem failed_transfer_is_recorded {W} (net : Net W) b s u folder_path st path :
  let filename := spec_filename b s (Url.basename path) in
  let disk_path := folder_path +:+ "/" +:+ filename in
  Url.urlparse_path (urllib net) u = Some path →
  (post net disk_path u (world st)).1 ≠ 202 →
  (download_single_image net (ImgData u b s) folder_path st).1 = Return tt
  ∧ results (download_single_image net (ImgData u b s) folder_path st).2
    = results st
      ++ [[("breed", PStr b); ("sub_breed", opt_val s);
           ("filename", PStr filename); ("original_url", PStr u);
           ("disk_path", PStr disk_path); ("status", PStr "error")]]
  ∧ trace (download_single_image net (ImgData u b s) folder_path st).2
    = trace st ++ [UploadFile u disk_path false].
Proof.
  intros filename disk_path Hpath Hcode. rewrite download_single_image_eq.
  simpl. rewrite Hpath.
  apply UrlFacts.urlparse_path_some in Hpath. subst path.
  unfold result_of, upload_of, disk_path_of. rewrite filename_of_spec. simpl.
  fold filename. fold disk_path.
  assert (accepted (post net disk_path u (world st)).1 = false) as ->.
  { unfold accepted. by apply bool_decide_eq_false_2. }
  done.
Qed.

(** C10.  When the path that [urlparse] gives for the candidate's URL ends
    with a slash, the extracted basename is empty: the filename is
    [{breed}_] without a sub-breed and [{breed}_{sub_breed}_] with one, and
    the upload is requested and recorded under that name all the same. *)
Theorem trailing_slash_filename {W} (net : Net W) b s u folder_path st q :
  Url.urlparse_path (urllib net) u = Some (q +:+ "/") →
  let filename :=
    match s with
    | Some (String c s') => b +:+ "_" +:+ String c s' +:+ "_"
    | _ => b +:+ "_"
    end in
  (extract_filename_from_url net u st).1 = Return EmptyString
  ∧ ∃ ok r,
      (download_single_image net (ImgData u b s) folder_path st).1 = Return tt
      ∧ trace (download_single_image net (ImgData u b s) folder_path st).2
        = trace st ++ [UploadFile u (folder_path +:+ "/" +:+ filename) ok]
      ∧ results (download_single_image net (ImgData u b s) folder_path st).2
        = results st ++ [r]
      ∧ Dict.get "filename" r = Some (PStr filename)
      ∧ Dict.get "disk_path" r = Some (PStr (folder_path +:+ "/" +:+ filename))
      ∧ Dict.get "status" r = Some (PStr (if ok then "success" else "error")).
Proof.
  intros Hpath filename.
  split.
  { rewrite extract_filename_from_url_eq, Hpath. simpl.
    by rewrite UrlFacts.basename_trailing_slash. }
  rewrite download_single_image_eq. simpl. rewrite Hpath.
  apply UrlFacts.urlparse_path_some in Hpath.
  assert (Hfn : filename_of (ImgData u b s) = filename).
  { rewrite filename_of_spec, <- Hpath, UrlFacts.basename_trailing_slash.
    unfold spec_filename, filename. by destruct s as [[|c s]|]. }
  unfold upload_of, result_of, disk_path_of. rewrite Hfn. simpl.
  eexists _, _. repeat split; reflexivity.
Qed.

(** ** What the catalog client returns *)

Section Resolve.

Context {W : Type} (net : Net W).

Lemma get_breed_image_outcome b s st :
  (get_breed_image net b s st).1 =
  let resp := (get_image net (random_image_url b s) (world st)).1 in
  if status_code resp =? 200 then
    match json resp with
    | None => Raise JSONDecodeError
    | Some data =>
        match Dict.get "status" data with
        | None => Raise (KeyError "status")
        | Some status =>
            if String.eqb status "success" then
              match Dict.get "message" data with
              | None => Raise (KeyError "message")
              | Some message => Return (Some message)
              end
            else Return None
        end
    end
  else Return None.
Proof.
  unfold get_breed_image, traced, bind, requests_get_image, random_image_url.
  destruct (get_image net _ (world st)) as [r w]; simpl.
  destruct (status_code r =? 200); [|done].
  unfold response_json. destruct (json r) as [data|]; simpl; [|done].
  unfold subscript at 1.
  destruct (Dict.get "status" data); simpl; [|done].
  destruct (String.eqb _ _); [|done].
  unfold subscript. by destruct (Dict.get "message" data).
Qed.

(** A response that is not a success gives [None]. *)
Lemma get_breed_image_non_success b s st :
  status_code (get_image net (random_image_url b s) (world st)).1 ≠ 200 →
  (get_breed_image net b s st).1 = Return None.
Proof.
  intros H. rewrite get_breed_image_outcome. simpl.
  by destruct (Z.eqb_spec (status_code (get_image net (random_image_url b s) (world st)).1) 200).
Qed.

(** A status marker other than [success] gives [None]. *)
Lemma get_breed_image_unexpected_status b s st data status :
  json (get_image net (random_image_url b s) (world st)).1 = Some data →
  Dict.get "status" data = Some status →
  status ≠ "success" →
  (get_breed_image net b s st).1 = Return None.
Proof.
  intros Hd Hs Hne. rewrite get_breed_image_outcome. simpl. rewrite Hd, Hs.
  destruct (String.eqb_spec status "success"); [done|].
  by destruct (_ =? _).
Qed.

(** A URL is returned only for a success response whose status marker is
    [success], and it is the payload's message. *)
Lemma get_breed_image_url_only_on_success b s st u :
  (get_breed_image net b s st).1 = Return (Some u) →
  let resp := (get_image net (random_image_url b s) (world st)).1 in
  status_code resp = 200
  ∧ ∃ data, json resp = Some data
            ∧ Dict.get "status" data = Some "success"
            ∧ Dict.get "message" data = Some u.
Proof.
  rewrite get_breed_image_outcome. simpl.
  destruct (Z.eqb_spec (status_code (get_image net (random_image_url b s) (world st)).1) 200)
    as [Hc|]; [|done].
  destruct (json _) as [data|]; [|done].
  destruct (Dict.get "status" data) as [status|] eqn:Hs; [|done].
  destruct (String.eqb_spec status "success") as [->|]; [|done].
  destruct (Dict.get "message" data) as [m|] eqn:Hm; [|done].
  intros [= ->]. split; [done|]. by exists data.
Qed.

(** A success response whose payload has no status marker makes the
    subscript [data['status']] raise. *)
Lemma get_breed_image_missing_status b s st data :
  status_code (get_image net (random_image_url b s) (world st)).1 = 200 →
  json (get_image net (random_image_url b s) (world st)).1 = Some data →
  Dict.get "status" data = None →
  (get_breed_image net b s st).1 = Raise (KeyError "status").
Proof.
  intros Hc Hd Hs. rewrite get_breed_image_outcome. simpl. by rewrite Hc, Hd, Hs.
Qed.


End Resolve.

(** ** Events and records, breed by breed *)

Lemma append_inj p a b : p +:+ a = p +:+ b → a = b.
Proof.
  induction p as [|c p IH]; [done|].
  rewrite !UrlFacts.app_cons. intros [= H]. by apply IH.
Qed.

Lemma folder_of_inj a b : folder_of a = folder_of b → a = b.
Proof. apply append_inj. Qed.

Lemma folder_of_not_root b : folder_of b ≠ root_folder.
Proof.
  intros H. apply (append_inj "/PY-130(API)" ("/dog_images/" +:+ b) EmptyString) in H.
  discriminate H.
Qed.

Lemma folder_of_not_images b : folder_of b ≠ images_folder.
Proof.
  intros H.
  apply (append_inj "/PY-130(API)/dog_images" ("/" +:+ b) EmptyString) in H.
  discriminate H.
Qed.

Lemma dict_get_elem_of {V} (d : dict V) k v :
  NoDup (Dict.keys d) → (k, v) ∈ d → Dict.get k d = Some v.
Proof.
  unfold Dict.keys. induction d as [|[k' v'] d IH]; simpl; intros Hnd Hin.
  - by apply elem_of_nil in Hin.
  - apply NoDup_cons in Hnd as [Hk' Hnd].
    apply elem_of_cons in Hin as [[= -> ->]|Hin].
    + by rewrite String.eqb_refl.
    + destruct (String.eqb_spec k k') as [->|]; [|by apply IH].
      exfalso. apply Hk'. apply list_elem_of_fmap. by exists (k', v).
Qed.

Lemma resolutions_elem_of b qs rs e :
  e ∈ resolutions b qs rs → ∃ q r, e = GetBreedImage b q r ∧ q ∈ qs ∧ r ∈ rs.
Proof.
  intros (q & r & -> & Hq & Hr)%elem_of_zip_with. by exists q, r.
Qed.

Lemma breed_trace_events b subs out evs recs :
  breed_trace b subs out evs recs → Forall (breed_event b) evs.
Proof.
  intros [|rs e Hlen Hlast|rs oks Hlen Hret Hoks|rs oks Hlen Hret Hoks].
  - by repeat constructor.
  - constructor; [done|]. apply Forall_forall. intros e' He'.
    by apply resolutions_elem_of in He' as (q & r & -> & _).
  - constructor; [done|]. apply Forall_app. split; apply Forall_forall; intros e' He'.
    + by apply resolutions_elem_of in He' as (q & r & -> & _).
    + by apply elem_of_zip_with in He' as (img & ok & -> & _).
  - constructor; [done|]. apply Forall_app. split; apply Forall_forall; intros e' He'.
    + by apply resolutions_elem_of in He' as (q & r & -> & _).
    + by apply elem_of_zip_with in He' as (img & ok & -> & _).
Qed.

Lemma breed_trace_record_for b subs out evs recs :
  breed_trace b subs out evs recs → Forall (record_for b) recs.
Proof.
  intros Hb. apply Forall_forall. intros r Hr.
  by destruct (breed_trace_records _ _ _ _ _ Hb r Hr) as (u & q & ok & ->).
Qed.

Lemma record_for_inj a b r : record_for a r → record_for b r → a = b.
Proof. unfold record_for. by intros -> [= ->]. Qed.

Lemma filter_record_for_all b recs :
  Forall (record_for b) recs → filter (record_for b) recs = recs.
Proof.
  induction 1 as [|r recs Hr _ IH]; [done|].
  rewrite filter_cons_True by done. by rewrite IH.
Qed.

Lemma filter_record_for_none a b recs :
  a ≠ b → Forall (record_for a) recs → filter (record_for b) recs = [].
Proof.
  intros Hne. induction 1 as [|r recs Hr _ IH]; [done|].
  rewrite filter_cons_False; [done|].
  intros Hb. apply Hne. by eapply record_for_inj.
Qed.

Lemma candidates_resolved b qs rs :
  length rs = length qs → Forall resolved rs →
  length (candidates b qs rs) = length rs.
Proof.
  revert rs. induction qs as [|q qs IH]; intros [|r rs] Hlen Hres; try done.
  apply Forall_cons in Hres as [(u & -> & Hu) Hres].
  unfold candidates in *. simpl. destruct u as [|c u]; [done|]. simpl.
  f_equal. apply IH; [by injection Hlen|done].
Qed.

Lemma resolutions_answer b qs rs r :
  (length rs ≤ length qs)%nat → r ∈ rs →
  ∃ q, GetBreedImage b q r ∈ resolutions b qs rs.
Proof.
  revert qs. induction rs as [|r' rs IH]; intros qs Hlen Hr.
  - by apply elem_of_nil in Hr.
  - destruct qs as [|q qs]; simpl in Hlen; [lia|].
    apply elem_of_cons in Hr as [->|Hr].
    + exists q. by left.
    + destruct (IH qs) as (q' & Hq'); [lia|done|].
      exists q'. by right.
Qed.

Lemma last_elem_of {A} (l : list A) x : last l = Some x → x ∈ l.
Proof.
  induction l as [|y l IH]; [done|].
  destruct l as [|z l]; simpl.
  - intros [= ->]. by left.
  - intros H. right. by apply IH.
Qed.

(** When the folder of [b] was created and every resolution for [b] gave a
    candidate, a call that returned appended one record per query. *)
Lemma breed_trace_complete b subs evs recs :
  breed_trace b subs (Return tt) evs recs →
  CreateFolder (folder_of b) true ∈ evs →
  (∀ q r, GetBreedImage b q r ∈ evs → resolved r) →
  length recs = length (queries subs).
Proof.
  inversion 1 as [| |rs oks Hlen Hret Hoks|]; subst; intros Hcf Hres.
  - by apply list_elem_of_singleton in Hcf.
  - assert (Forall resolved rs) as Hall.
    { apply Forall_forall. intros r Hr.
      destruct (resolutions_answer b (queries subs) rs r) as (q & Hq); [lia|done|].
      apply (Hres q). right. apply elem_of_app. by left. }
    rewrite length_zip_with_l_eq by done.
    rewrite candidates_resolved by done. done.
Qed.

(** A call that found its folder refused appended nothing. *)
Lemma breed_trace_refused b subs out evs recs :
  breed_trace b subs out evs recs →
  CreateFolder (folder_of b) false ∈ evs → recs = [].
Proof.
  intros [|rs e Hlen Hlast|rs oks Hlen Hret Hoks|rs oks Hlen Hret Hoks] Hcf;
    [done|done| |].
  all: apply elem_of_cons in Hcf as [[=]|Hcf].
  all: apply elem_of_app in Hcf as [Hcf|Hcf].
  all: try by apply resolutions_elem_of in Hcf as (q & r & [=] & _).
  all: by apply elem_of_zip_with in Hcf as (img & ok & [=] & _).
Qed.

(** A call that returned recorded every candidate it resolved. *)
Lemma breed_trace_recorded b subs evs recs q u :
  breed_trace b subs (Return tt) evs recs →
  GetBreedImage b q (Return (Some u)) ∈ evs → u ≠ EmptyString →
  ∃ ok, result_of (folder_of b) (ImgData u b q) ok ∈ recs
        ∧ upload_of (folder_of b) (ImgData u b q) ok ∈ evs.
Proof.
  intros Hb. inversion Hb as [| |rs oks Hlen Hret Hoks|]; subst; intros Hev Hu.
  - by apply list_elem_of_singleton in Hev.
  - apply elem_of_cons in Hev as [[=]|Hev].
    apply elem_of_app in Hev as [Hev|Hev].
    2:{ by apply elem_of_zip_with in Hev as (img & ok & [=] & _). }
    set (cands := candidates b (queries subs) rs) in *.
    assert (ImgData u b q ∈ cands) as Hin.
    { unfold cands, candidates. apply list_elem_of_omap.
      exists (Some (ImgData u b q)). split; [|done].
      apply elem_of_lookup_zip_with in Hev as (i & q' & r & [= <- <-] & Hq & Hr).
      apply elem_of_lookup_zip_with. exists i, q, (Return (Some u)).
      split; [|done]. unfold candidate_of. by destruct u. }
    apply list_elem_of_lookup in Hin as (i & Hi).
    destruct (lookup_lt_is_Some_2 oks i) as (ok & Hok).
    { rewrite Hoks. by eapply lookup_lt_Some. }
    exists ok. split.
    + apply list_elem_of_lookup. exists i. rewrite lookup_zip_with, Hi. simpl.
      by rewrite Hok.
    + right. apply elem_of_app. right.
      apply list_elem_of_lookup. exists i. rewrite lookup_zip_with, Hi. simpl.
      by rewrite Hok.
Qed.

(** ** Events and records of the loop over the breeds *)

Lemma breeds_trace_events items out evs recs :
  breeds_trace items out evs recs →
  Forall (λ e, ∃ b, b ∈ items.*1 ∧ breed_event b e) evs.
Proof.
  induction 1 as [|b subs rest e evs recs Hb
                  |b subs rest out evs recs evs' recs' Hb Hbs IH].
  - constructor.
  - eapply Forall_impl; [by eapply breed_trace_events|].
    intros e' He'. exists b. split; [by left|done].
  - apply Forall_app. split.
    + eapply Forall_impl; [by eapply breed_trace_events|].
      intros e' He'. exists b. split; [by left|done].
    + eapply Forall_impl; [exact IH|].
      intros e' (b' & Hb' & He'). exists b'. split; [by right|done].
Qed.

Lemma breeds_trace_records items out evs recs :
  breeds_trace items out evs recs →
  Forall (λ r, ∃ b, b ∈ items.*1 ∧ record_for b r) recs.
Proof.
  induction 1 as [|b subs rest e evs recs Hb
                  |b subs rest out evs recs evs' recs' Hb Hbs IH].
  - constructor.
  - eapply Forall_impl; [by eapply breed_trace_record_for|].
    intros r Hr. exists b. split; [by left|done].
  - apply Forall_app. split.
    + eapply Forall_impl; [by eapply breed_trace_record_for|].
      intros r Hr. exists b. split; [by left|done].
    + eapply Forall_impl; [exact IH|].
      intros r (b' & Hb' & Hr). exists b'. split; [by right|done].
Qed.

(** No event and no record for a breed that the loop does not visit. *)
Lemma breeds_trace_absent items out evs recs b :
  breeds_trace items out evs recs → b ∉ items.*1 →
  (∀ ok, CreateFolder (folder_of b) ok ∉ evs)
  ∧ filter (record_for b) recs = [].
Proof.
  intros Hbs Hb. split.
  - intros ok Hin. apply breeds_trace_events in Hbs.
    rewrite Forall_forall in Hbs. destruct (Hbs _ Hin) as (b' & Hb' & He).
    simpl in He. apply folder_of_inj in He. by subst.
  - apply breeds_trace_records in Hbs.
    induction Hbs as [|r recs (b' & Hb' & Hr) _ IH]; [done|].
    rewrite filter_cons_False; [done|].
    intros Hr'. by rewrite (record_for_inj _ _ _ Hr' Hr) in Hb.
Qed.

Lemma breed_event_folder b b' subs out evs recs ok :
  breed_trace b' subs out evs recs →
  CreateFolder (folder_of b) ok ∈ evs → b = b'.
Proof.
  intros Hb Hin. apply breed_trace_events in Hb.
  rewrite Forall_forall in Hb. apply Hb in Hin. by apply folder_of_inj in Hin.
Qed.

Lemma breed_event_image b b' subs out evs recs q r :
  breed_trace b' subs out evs recs →
  GetBreedImage b q r ∈ evs → b = b'.
Proof.
  intros Hb Hin. apply breed_trace_events in Hb.
  rewrite Forall_forall in Hb. by apply Hb in Hin.
Qed.

(** Completeness, for a loop that returned: the breed whose folder was
    created and whose resolutions all gave a candidate has one record per
    query. *)
Lemma breeds_trace_complete items evs recs b :
  breeds_trace items (Return tt) evs recs → NoDup items.*1 →
  CreateFolder (folder_of b) true ∈ evs →
  (∀ q r, GetBreedImage b q r ∈ evs → resolved r) →
  ∃ subs, (b, subs) ∈ items
          ∧ length (filter (record_for b) recs) = length (queries subs).
Proof.
  intros Hbs. remember (Return tt) as out eqn:Hout.
  induction Hbs as [|b' subs rest e evs recs Hb
                    |b' subs rest out evs recs evs' recs' Hb Hbs IH];
    intros Hnd Hcf Hres.
  - by apply elem_of_nil in Hcf.
  - done.
  - simpl in Hnd. apply NoDup_cons in Hnd as [Hb' Hnd].
    rewrite filter_app, length_app.
    apply elem_of_app in Hcf as [Hcf|Hcf].
    + assert (b = b') as -> by by eapply breed_event_folder.
      exists subs. split; [by left|].
      destruct (breeds_trace_absent _ _ _ _ b' Hbs Hb') as [_ ->].
      rewrite filter_record_for_all by by eapply breed_trace_record_for.
      rewrite Nat.add_0_r. eapply breed_trace_complete; [done..|].
      intros q r Hin. apply (Hres q). apply elem_of_app. by left.
    + destruct IH as (subs' & Hin & Hlen); [done..| |].
      { intros q r Hin. apply (Hres q). apply elem_of_app. by right. }
      assert (b ≠ b') as Hne.
      { intros ->. apply Hb'. apply list_elem_of_fmap. by exists (b', subs'). }
      exists subs'. split; [by right|].
      rewrite (filter_record_for_none b' b) by
        (done || by eapply breed_trace_record_for).
      done.
Qed.

(** Isolation, for the loop: the breed whose folder was refused has no
    record. *)
Lemma breeds_trace_refused items out evs recs b :
  breeds_trace items out evs recs → NoDup items.*1 →
  CreateFolder (folder_of b) false ∈ evs →
  filter (record_for b) recs = [].
Proof.
  induction 1 as [|b' subs rest e evs recs Hb
                  |b' subs rest out evs recs evs' recs' Hb Hbs IH];
    intros Hnd Hcf.
  - done.
  - assert (b = b') as -> by by eapply breed_event_folder.
    by rewrite (breed_trace_refused _ _ _ _ _ Hb Hcf).
  - simpl in Hnd. apply NoDup_cons in Hnd as [Hb' Hnd].
    rewrite filter_app.
    apply elem_of_app in Hcf as [Hcf|Hcf].
    + assert (b = b') as -> by by eapply breed_event_folder.
      destruct (breeds_trace_absent _ _ _ _ b' Hbs Hb') as [_ ->].
      by rewrite (breed_trace_refused _ _ _ _ _ Hb Hcf).
    + rewrite IH by done.
      assert (b ≠ b') as Hne.
      { intros ->. destruct (decide (b' ∈ rest.*1)) as [|Hn]; [done|].
        by destruct (breeds_trace_absent _ _ _ _ b' Hbs Hn) as [Habs _];
          apply Habs in Hcf. }
      rewrite (filter_record_for_none b' b) by
        (done || by eapply breed_trace_record_for).
      done.
Qed.

(** A loop that returned recorded every candidate it resolved. *)
Lemma breeds_trace_recorded items evs recs b q u :
  breeds_trace items (Return tt) evs recs →
  GetBreedImage b q (Return (Some u)) ∈ evs → u ≠ EmptyString →
  ∃ ok, result_of (folder_of b) (ImgData u b q) ok ∈ recs
        ∧ upload_of (folder_of b) (ImgData u b q) ok ∈ evs.
Proof.
  intros Hbs. remember (Return tt) as out eqn:Hout.
  induction Hbs as [|b' subs rest e evs recs Hb
                    |b' subs rest out evs recs evs' recs' Hb Hbs IH];
    intros Hin Hu.
  - by apply elem_of_nil in Hin.
  - done.
  - apply elem_of_app in Hin as [Hin|Hin].
    + assert (b = b') as -> by by eapply breed_event_image.
      destruct (breed_trace_recorded _ _ _ _ _ _ Hb Hin Hu) as (ok & H1 & H2).
      exists ok. split; apply elem_of_app; by left.
    + destruct (IH Hout Hin Hu) as (ok & H1 & H2).
      exists ok. split; apply elem_of_app; by right.
Qed.

(** ** Uploads and records go in pairs *)

Lemma filter_upload_resolutions b qs rs :
  filter is_upload (resolutions b qs rs) = [].
Proof.
  unfold resolutions. revert rs.
  induction qs as [|q qs IH]; intros [|r rs]; simpl; try done.
  rewrite filter_cons_False by (by intros []). apply IH.
Qed.

Lemma uploads_records folder_path imgs oks :
  filter is_upload (zip_with (upload_of folder_path) imgs oks)
  = zip_with (upload_of folder_path) imgs oks
  ∧ Forall2 records_upload
      (zip_with (upload_of folder_path) imgs oks)
      (zip_with (result_of folder_path) imgs oks).
Proof.
  revert oks. induction imgs as [|img imgs IH]; intros [|ok oks]; simpl;
    try by split; [done|constructor].
  destruct (IH oks) as [Hf Hr]. split.
  - rewrite filter_cons_True by done. by rewrite Hf.
  - constructor; [|done]. by destruct ok.
Qed.

Lemma breed_trace_uploads b subs out evs recs :
  breed_trace b subs out evs recs →
  Forall2 records_upload (filter is_upload evs) recs.
Proof.
  intros [|rs e Hlen Hlast|rs oks Hlen Hret Hoks|rs oks Hlen Hret Hoks].
  - rewrite filter_cons_False by (by intros []). constructor.
  - rewrite filter_cons_False by (by intros []).
    rewrite filter_upload_resolutions. constructor.
  - rewrite filter_cons_False by (by intros []).
    rewrite filter_app, filter_upload_resolutions. simpl.
    destruct (uploads_records (folder_of b)
                (candidates b (queries subs) rs) oks) as [-> Hr].
    exact Hr.
  - rewrite filter_cons_False by (by intros []).
    rewrite filter_app, filter_upload_resolutions. simpl.
    destruct (uploads_records (folder_of b)
                (candidates b (queries subs) rs) oks) as [-> Hr].
    exact Hr.
Qed.

Lemma breeds_trace_uploads items out evs recs :
  breeds_trace items out evs recs →
  Forall2 records_upload (filter is_upload evs) recs.
Proof.
  induction 1 as [|b subs rest e evs recs Hb
                  |b subs rest out evs recs evs' recs' Hb Hbs IH].
  - constructor.
  - by eapply breed_trace_uploads.
  - rewrite filter_app. apply Forall2_app; [|done].
    by eapply breed_trace_uploads.
Qed.

Lemma run_trace_uploads target_breed fs out evs recs fs' :
  run_trace target_breed fs out evs recs fs' →
  Forall2 records_upload (filter is_upload evs) recs.
Proof.
  intros [| |e0|d Hd|d br Hd Ht Hbr|d s Hd Ht Hc|d s Hd Ht
          |d m' items e evs' recs' Hd Hsel Hbs
          |d m' items evs' recs' Hd Hsel Hbs];
    try (vm_compute; constructor).
  - rewrite filter_app. change (filter is_upload (prelude (Return d))) with (@nil event).
    by eapply breeds_trace_uploads.
  - rewrite !filter_app. change (filter is_upload (prelude (Return d))) with (@nil event).
    rewrite filter_cons_False by (by intros []). rewrite app_nil_r.
    by eapply breeds_trace_uploads.
Qed.

(** ** Whole runs *)

Lemma prelude_folder data p ok :
  CreateFolder p ok ∈ prelude data → p = root_folder ∨ p = images_folder.
Proof.
  unfold prelude. rewrite !elem_of_cons, elem_of_nil.
  intros [[= -> _]|[[= -> _]|[[=]|[]]]]; auto.
Qed.

Lemma prelude_listing data data' :
  GetAllBreeds data' ∈ prelude data → data' = data.
Proof.
  unfold prelude. rewrite !elem_of_cons, elem_of_nil.
  by intros [[=]|[[=]|[[= ->]|[]]]].
Qed.

Lemma breeds_trace_breed_event items out evs recs e :
  breeds_trace items out evs recs → e ∈ evs → ∃ b, breed_event b e.
Proof.
  intros Hbs Hin. apply breeds_trace_events in Hbs.
  rewrite Forall_forall in Hbs. destruct (Hbs _ Hin) as (b & _ & He). eauto.
Qed.

Lemma selection_items target_breed m items :
  selection target_breed m items → NoDup (Dict.keys m) →
  NoDup items.*1 ∧ ∀ b subs, (b, subs) ∈ items → Dict.get b m = Some subs.
Proof.
  unfold selection. destruct (truthy target_breed).
  - intros (subs & Hget & ->) _. split.
    + apply NoDup_singleton.
    + by intros b subs' [= -> ->]%list_elem_of_singleton.
  - intros -> Hnd. split; [done|]. intros b subs. by apply dict_get_elem_of.
Qed.

Lemma aborted_folder evs p ok :
  aborted evs → CreateFolder p ok ∈ evs → p = root_folder ∨ p = images_folder.
Proof.
  intros [->|[->|[data ->]]].
  - intros [= -> _]%list_elem_of_singleton. by left.
  - rewrite !elem_of_cons, elem_of_nil. intros [[= -> _]|[[= -> _]|[]]]; auto.
  - apply prelude_folder.
Qed.

Lemma aborted_other evs e :
  aborted evs → e ∈ evs →
  match e with
  | CreateFolder _ _ | GetAllBreeds _ => True
  | _ => False
  end.
Proof.
  intros [->|[->|[data ->]]]; unfold prelude;
    rewrite ?elem_of_cons, elem_of_nil; intros H;
    repeat destruct H as [H|H]; by subst.
Qed.

(** C1, amended.  Every call of [download_single_image] that reaches the
    upload step, which are the calls whose URL [urlparse] accepts, returns,
    makes one upload request and appends exactly one record to
    [self.results], whatever the status code of the request; a call whose
    URL [urlparse] rejects raises [ValueError] before the request and
    changes nothing.  In a run, the upload requests and the records go in
    pairs, in order, each record with the URL, the destination and the
    outcome of its request; and no method of the orchestrator changes or
    removes a record that is already there: the results before a call
    remain, in place, a prefix of the results after it. *)
Theorem one_record_per_upload {W} (net : Net W) :
  (∀ img folder_path st path,
     Url.urlparse_path (urllib net) (url img) = Some path →
     ∃ r disk_path ok,
       (download_single_image net img folder_path st).1 = Return tt
       ∧ results (download_single_image net img folder_path st).2
         = results st ++ [r]
       ∧ trace (download_single_image net img folder_path st).2
         = trace st ++ [UploadFile (url img) disk_path ok])
  ∧ (∀ img folder_path st,
       Url.urlparse_path (urllib net) (url img) = None →
       download_single_image net img folder_path st = (Raise ValueError, st))
  ∧ (∀ target_breed w fs,
       Forall2 records_upload
         (filter is_upload (trace (run net target_breed (init w fs)).2))
         (results (run net target_breed (init w fs)).2))
  ∧ (∀ img folder_path st,
       results st `prefix_of` results (download_single_image net img folder_path st).2)
  ∧ (∀ b sub_breeds st,
       results st `prefix_of` results (download_breed_images net b sub_breeds st).2)
  ∧ (∀ filename (st : @state W),
       results st `prefix_of` results (save_results_to_json filename st).2)
  ∧ (∀ target_breed st,
       results st `prefix_of` results (run net target_breed st).2).
Proof.
  split_and!.
  - intros img folder_path st path Hpath.
    rewrite download_single_image_eq, Hpath. simpl. eauto 6.
  - intros img folder_path st Hpath.
    by rewrite download_single_image_eq, Hpath.
  - intros target_breed w fs.
    destruct (run_eq net target_breed w fs)
      as (out & evs & recs & fs' & w' & -> & Htr).
    simpl. by eapply run_trace_uploads.
  - intros. apply keeps_download_single_image.
  - intros. apply keeps_download_breed_images.
  - intros. apply keeps_save_results_to_json.
  - intros. apply keeps_run.
Qed.

Section Claims.

Context {W : Type} (net : Net W).

(** C2, amended.  In a run from a fresh orchestrator that no fault ends
    and whose catalog listing maps the breed [b] to the sub-breeds [subs]:
    when the folder of [b] was created and every call of [get_breed_image]
    for [b] returned a non-empty URL, [self.results] holds exactly one
    record of breed [b] per sub-breed, and exactly one when [b] has no
    sub-breeds. *)
Theorem completeness_per_breed target_breed w fs b :
  (run net target_breed (init w fs)).1 = Return tt →
  completeness net target_breed w fs b.
Proof.
  unfold completeness.
  destruct (run_eq net target_breed w fs)
    as (out & evs & recs & fs' & w' & -> & Htr).
  simpl. intros -> data m subs Hlist Hmsg Hnd Hget Hcf Hres.
  change ("/PY-130(API)/dog_images/" +:+ b) with (folder_of b) in Hcf.
  assert (Hab : aborted evs → False).
  { intros Hab. destruct (aborted_folder _ _ _ Hab Hcf) as [H|H].
    - by apply folder_of_not_root in H.
    - by apply folder_of_not_images in H. }
  inversion Htr as [| | |d Hd|d br Hd Ht Hbr| | |
                    |d m' items evs' recs' Hd Hsel Hbs]; subst.
  - exfalso. apply Hab. by left.
  - exfalso. apply Hab. right. by left.
  - exfalso. apply Hab. right. right. by eexists.
  - exfalso. apply Hab. right. right. by eexists.
  - assert (Htail : ∀ e, e ∈ [WriteFile manifest (Json.dump recs)] →
                         ∃ n c, e = WriteFile n c).
    { intros e ->%list_elem_of_singleton. eauto. }
    assert (d = data) as ->.
    { apply elem_of_app in Hlist as [H|H];
        [by apply prelude_listing in H as [= ->]|].
      apply elem_of_app in H as [H|H].
      - by destruct (breeds_trace_breed_event _ _ _ _ _ Hbs H).
      - by destruct (Htail _ H) as (n & c & [=]). }
    rewrite Hmsg in Hd. injection Hd as <-.
    destruct (selection_items _ _ _ Hsel Hnd) as [Hnd' Hitems].
    destruct (breeds_trace_complete items evs' recs b Hbs Hnd')
      as (subs' & Hin & ->).
    + apply elem_of_app in Hcf as [H|H].
      { apply prelude_folder in H as [H|H];
          [by apply folder_of_not_root in H|by apply folder_of_not_images in H]. }
      apply elem_of_app in H as [H|H]; [done|].
      by destruct (Htail _ H) as (n & c & [=]).
    + intros q r Hin. apply (Hres q). apply elem_of_app. right.
      apply elem_of_app. by left.
    + apply Hitems in Hin. rewrite Hget in Hin. injection Hin as <-.
      destruct subs; simpl; [done|]. by rewrite length_fmap.
Qed.

(** C5, amended.  A run whose catalog listing came back empty stops right
    after the listing: when [get_all_breeds] returned the empty dict, as it
    does for every response that is not a success, or when a breed was
    requested and the breed mapping of the payload is empty, the run
    returned without a fault, made no further call, created no record and
    did not write the manifest. *)
Theorem empty_catalog_aborts target_breed w fs data :
  GetAllBreeds (Return data) ∈ trace (run net target_breed (init w fs)).2 →
  data = []
  ∨ (Dict.get "message" data = Some (Breeds []) ∧ truthy target_breed = true) →
  (run net target_breed (init w fs)).1 = Return tt
  ∧ trace (run net target_breed (init w fs)).2
    = [CreateFolder "/PY-130(API)" true;
       CreateFolder "/PY-130(API)/dog_images" true; GetAllBreeds (Return data)]
  ∧ results (run net target_breed (init w fs)).2 = []
  ∧ files (run net target_breed (init w fs)).2 !! "download_results.json"
    = fs !! "download_results.json".
Proof.
  destruct (run_eq net target_breed w fs)
    as (out & evs & recs & fs' & w' & -> & Htr).
  simpl. intros Hlist Hempty.
  assert (Hpre : ∀ d evs' tail,
    evs = prelude (Return d) ++ evs' ++ tail →
    (∀ e, e ∈ evs' → ∃ b, breed_event b e) →
    (∀ e, e ∈ tail → ∃ n c, e = WriteFile n c) → d = data).
  { intros d evs' tail -> Hevs Htail.
    apply elem_of_app in Hlist as [H|H];
      [by apply prelude_listing in H as [= ->]|].
    apply elem_of_app in H as [H|H].
    - by destruct (Hevs _ H).
    - by destruct (Htail _ H) as (n & c & [=]). }
  assert (Hsel : ∀ m items,
    Dict.get "message" data = Some (Breeds m) →
    selection target_breed m items → False).
  { intros m items Hm Hsel.
    destruct Hempty as [->|[Hm' Ht]]; [done|].
    rewrite Hm' in Hm. injection Hm as <-.
    unfold selection in Hsel. rewrite Ht in Hsel.
    by destruct Hsel as (subs & ? & _). }
  destruct Htr as [| |e0|d Hd|d br Hd Ht Hbr|d s Hd Ht Hc|d s Hd Ht
                   |d m' items e evs recs Hd Hsel' Hbs
                   |d m' items evs recs Hd Hsel' Hbs].
  - by apply list_elem_of_singleton in Hlist.
  - rewrite !elem_of_cons, elem_of_nil in Hlist. by destruct Hlist as [|[|]].
  - by apply prelude_listing in Hlist.
  - by apply prelude_listing in Hlist as [= <-].
  - by apply prelude_listing in Hlist as [= <-].
  - apply prelude_listing in Hlist as [= <-].
    destruct Hempty as [->|[Hm' _]]; [done|congruence].
  - apply prelude_listing in Hlist as [= <-].
    destruct Hempty as [->|[Hm' _]]; [done|congruence].
  - exfalso. apply (Hsel m' items); [|done].
    rewrite <- (Hpre d evs []); [done|by rewrite app_nil_r| |].
    + intros e'. by eapply breeds_trace_breed_event.
    + intros e' He'. by apply elem_of_nil in He'.
  - exfalso. apply (Hsel m' items); [|done].
    rewrite <- (Hpre d evs [WriteFile manifest (Json.dump recs)]); [done..| |].
    + intros e'. by eapply breeds_trace_breed_event.
    + intros e' ->%list_elem_of_singleton. eauto.
Qed.

(** C8.  A run for a requested breed that the catalog listing does not
    hold stops before the loop over the breeds: no folder is created for
    that breed, no image is resolved, no upload is requested, the manifest
    is not written and no record is created. *)
Theorem unknown_target_aborts t w fs :
  t ≠ EmptyString →
  (∀ data m,
     GetAllBreeds (Return data) ∈ trace (run net (Some t) (init w fs)).2 →
     Dict.get "message" data = Some (Breeds m) → Dict.get t m = None) →
  aborted (trace (run net (Some t) (init w fs)).2)
  ∧ (∀ ok, CreateFolder ("/PY-130(API)/dog_images/" +:+ t) ok
           ∉ trace (run net (Some t) (init w fs)).2)
  ∧ (∀ b q r, GetBreedImage b q r ∉ trace (run net (Some t) (init w fs)).2)
  ∧ (∀ u p ok, UploadFile u p ok ∉ trace (run net (Some t) (init w fs)).2)
  ∧ (∀ n c, WriteFile n c ∉ trace (run net (Some t) (init w fs)).2)
  ∧ files (run net (Some t) (init w fs)).2 = fs
  ∧ results (run net (Some t) (init w fs)).2 = [].
Proof.
  intros Ht.
  destruct (run_eq net (Some t) w fs)
    as (out & evs & recs & fs' & w' & -> & Htr).
  simpl. intros Habs.
  assert (Hab : aborted evs → recs = [] → fs' = fs →
    aborted evs
    ∧ (∀ ok, CreateFolder ("/PY-130(API)/dog_images/" +:+ t) ok ∉ evs)
    ∧ (∀ b q r, GetBreedImage b q r ∉ evs)
    ∧ (∀ u p ok, UploadFile u p ok ∉ evs)
    ∧ (∀ n c, WriteFile n c ∉ evs)
    ∧ fs' = fs ∧ recs = []).
  { intros Hab -> ->. split; [done|]. split.
    { intros ok H. destruct (aborted_folder _ _ _ Hab H) as [H'|H'].
      - by apply (folder_of_not_root t).
      - by apply (folder_of_not_images t). }
    repeat split; intros; intros H; exact (aborted_other _ _ Hab H). }
  assert (Hsel : ∀ d m' items,
    GetAllBreeds (Return d) ∈ evs → Dict.get "message" d = Some (Breeds m') →
    selection (Some t) m' items → False).
  { intros d m' items Hin Hd Hsel. unfold selection in Hsel. simpl in Hsel.
    destruct t; [done|]. simpl in Hsel. destruct Hsel as (subs & Hget & _).
    by rewrite (Habs d m' Hin Hd) in Hget. }
  destruct Htr as [| |e0|d Hd|d br Hd Ht' Hbr|d s Hd Ht' Hc|d s Hd Ht'
                   |d m' items e evs recs Hd Hsel' Hbs
                   |d m' items evs recs Hd Hsel' Hbs].
  - apply Hab; [by left|done..].
  - apply Hab; [right; by left|done..].
  - apply Hab; [right; right; by eexists|done..].
  - apply Hab; [right; right; by eexists|done..].
  - apply Hab; [right; right; by eexists|done..].
  - apply Hab; [right; right; by eexists|done..].
  - apply Hab; [right; right; by eexists|done..].
  - exfalso. apply (Hsel d m' items); [|done..].
    apply elem_of_app. left. unfold prelude. do 2 right. by left.
  - exfalso. apply (Hsel d m' items); [|done..].
    apply elem_of_app. left. unfold prelude. do 2 right. by left.
Qed.

End Claims.

(** ** Isolation of a refused folder, and the empty manifest *)

Section Isolation.

Context {W : Type} (net : Net W).

(** C7, amended.  In a run that no fault ends, a refused folder for [A]
    is not fatal: with the folder of [B] created, there is no record for
    [A], every candidate resolved for [B] has its record, and the run
    writes the manifest. *)
Theorem folder_failure_is_isolated target_breed w fs A B :
  (run net target_breed (init w fs)).1 = Return tt →
  partial_failure_isolation net target_breed w fs A B.
Proof.
  unfold partial_failure_isolation, listing_is_dict, finalized.
  destruct (run_eq net target_breed w fs)
    as (out & evs & recs & fs' & w' & -> & Htr).
  simpl. intros -> Hdict HA HB.
  change ("/PY-130(API)/dog_images/" +:+ A) with (folder_of A) in HA.
  change ("/PY-130(API)/dog_images/" +:+ B) with (folder_of B) in HB.
  assert (Hab : aborted evs → False).
  { intros Hab. destruct (aborted_folder _ _ _ Hab HB) as [H|H].
    - by apply folder_of_not_root in H.
    - by apply folder_of_not_images in H. }
  inversion Htr as [| | |d Hd|d br Hd Ht Hbr| | | |d m items evs' recs' Hd Hsel Hbs];
    subst.
  - exfalso. apply Hab. by left.
  - exfalso. apply Hab. right. by left.
  - exfalso. apply Hab. right. right. by eexists.
  - exfalso. apply Hab. right. right. by eexists.
  - assert (Hin : ∀ e, (∃ b, breed_event b e) →
              e ∈ prelude (Return d) ++ evs' ++ [WriteFile manifest (Json.dump recs)] →
              e ∈ evs').
    { intros e (b & He) H. apply elem_of_app in H as [H|H].
      - unfold prelude in H. rewrite !elem_of_cons, elem_of_nil in H.
        destruct H as [->|[->|[->|[]]]]; simpl in He; [| |done].
        + by apply eq_sym, folder_of_not_root in He.
        + by apply eq_sym, folder_of_not_images in He.
      - apply elem_of_app in H as [H|H]; [done|].
        apply list_elem_of_singleton in H as ->. done. }
    assert (Hnd : NoDup (Dict.keys m)).
    { apply (Hdict d); [|done]. apply elem_of_app. left.
      unfold prelude. do 2 right. by left. }
    destruct (selection_items _ _ _ Hsel Hnd) as [Hnd' _].
    split; [|split; [|split]].
    + eapply breeds_trace_refused; [done..|].
      apply Hin; [by exists A|done].
    + intros q u Hev Hu.
      destruct (breeds_trace_recorded items evs' recs B q u Hbs) as (ok & Hr & _);
        [by apply Hin; [exists B|]|done|].
      by eexists.
    + by rewrite !app_assoc, last_snoc.
    + done.
Qed.

(** C9, amended.  A run that passed Init, CatalogFetch and BreedSelection,
    that no fault ended and that produced no record wrote the manifest
    as its last step: the file holds the empty JSON array, whatever was
    there before. *)
Theorem empty_manifest_is_written target_breed w fs :
  (run net target_breed (init w fs)).1 = Return tt →
  empty_manifest_at_finalize net target_breed w fs.
Proof.
  unfold empty_manifest_at_finalize, reaches_per_breed.
  destruct (run_eq net target_breed w fs)
    as (out & evs & recs & fs' & w' & -> & Htr).
  simpl. intros -> (data & m & Hpre & Hmsg & Htarget) ->.
  assert (Hdata : ∀ d rest, evs = prelude (Return d) ++ rest → d = data).
  { intros d rest ->. unfold prelude in Hpre. simpl in Hpre.
    do 2 apply prefix_cons_inv_2 in Hpre.
    by apply prefix_cons_inv_1 in Hpre as [= ->]. }
  inversion Htr as [| | |d Hd|d br Hd Ht Hbr| | | |d m' items evs' recs' Hd Hsel Hbs];
    subst.
  - by apply prefix_cons_inv_1 in Hpre.
  - apply prefix_cons_inv_2 in Hpre. by apply prefix_cons_inv_1 in Hpre.
  - rewrite (Hdata d []) in Hd by by rewrite app_nil_r.
    destruct Hd as [->|Hd]; [done|by rewrite Hmsg in Hd].
  - rewrite (Hdata d []) in Hd by by rewrite app_nil_r.
    rewrite Hmsg in Hd. injection Hd as <-.
    destruct (Htarget Ht) as (subs & Hsubs). by rewrite Hsubs in Hbr.
  - split; [|done]. by rewrite !app_assoc, last_snoc.
Qed.

End Isolation.

(** * More of the pipeline *)

(** ** The shape of the trace of a run *)

Lemma breeds_trace_not_listing items out evs recs r :
  breeds_trace items out evs recs → GetAllBreeds r ∉ evs.
Proof.
  intros Hbs Hin. by destruct (breeds_trace_breed_event _ _ _ _ _ Hbs Hin).
Qed.

Lemma breeds_trace_not_write items out evs recs n c :
  breeds_trace items out evs recs → WriteFile n c ∉ evs.
Proof.
  intros Hbs Hin. by destruct (breeds_trace_breed_event _ _ _ _ _ Hbs Hin).
Qed.

Lemma breeds_trace_not_init items out evs recs p ok :
  breeds_trace items out evs recs →
  p = root_folder ∨ p = images_folder → CreateFolder p ok ∉ evs.
Proof.
  intros Hbs Hp Hin.
  destruct (breeds_trace_breed_event _ _ _ _ _ Hbs Hin) as (b & Hb). simpl in Hb.
  destruct Hp as [->| ->].
  - by apply eq_sym, folder_of_not_root in Hb.
  - by apply eq_sym, folder_of_not_images in Hb.
Qed.

(** Every trace of a run is a head that stops before the loop over the
    breeds, the events of that loop, and the write of the manifest if the
    run got there. *)
Lemma run_trace_split target_breed fs out evs recs fs' :
  run_trace target_breed fs out evs recs fs' →
  ∃ head items out' evs' tail,
    evs = head ++ evs' ++ tail
    ∧ aborted head
    ∧ breeds_trace items out' evs' recs
    ∧ (items = []
       ∨ ∃ data m, head = prelude (Return data)
                   ∧ Dict.get "message" data = Some (Breeds m)
                   ∧ selection target_breed m items)
    ∧ (tail = [] ∧ fs' = fs
       ∨ tail = [WriteFile manifest (Json.dump recs)]
         ∧ fs' = <[manifest := Json.dump recs]> fs
         ∧ out = Return tt)
    ∧ (out = Return tt → out' = Return tt).
Proof.
  intros [| |e0|d Hd|d br Hd Ht Hbr|d s Hd Ht Hc|d s Hd Ht
          |d m' items e evs' recs' Hd Hsel Hbs
          |d m' items evs' recs' Hd Hsel Hbs].
  1-7: eexists _, [], (Return tt), [], []; rewrite !app_nil_r;
    (split; [reflexivity|]);
    (split; [|split; [constructor|split; [by left|split; [by left|done]]]]).
  - by left.
  - right. by left.
  - right. right. by eexists.
  - right. right. by eexists.
  - right. right. by eexists.
  - right. right. by eexists.
  - right. right. by eexists.
  - eexists (prelude (Return d)), items, (Raise e), evs', [].
    rewrite app_nil_r. split; [done|]. split; [right; right; by eexists|].
    split; [done|]. split; [right; by eauto|]. split; [by left|done].
  - eexists (prelude (Return d)), items, (Return tt), evs', _.
    split; [reflexivity|]. split; [right; right; by eexists|].
    split; [done|]. split; [right; by eauto|]. split; [by right|done].
Qed.

Lemma aborted_listing head r :
  aborted head → GetAllBreeds r ∈ head → head = prelude r.
Proof.
  intros [->|[->|[data ->]]] Hin.
  - by apply list_elem_of_singleton in Hin.
  - rewrite !elem_of_cons, elem_of_nil in Hin. by destruct Hin as [|[|]].
  - by apply prelude_listing in Hin as ->.
Qed.

(** The listing of a run: the trace starts with the two root folders and
    the listing, and holds no other listing and no other request for a
    root folder. *)
Lemma run_trace_listing target_breed fs out evs recs fs' r :
  run_trace target_breed fs out evs recs fs' →
  GetAllBreeds r ∈ evs →
  ∃ rest, evs = prelude r ++ rest
          ∧ (∀ r', GetAllBreeds r' ∉ rest)
          ∧ (∀ p ok, p = root_folder ∨ p = images_folder → CreateFolder p ok ∉ rest).
Proof.
  intros (head & items & out' & evs' & tail & -> & Hab & Hbs & _ & Htail & _)%run_trace_split
    Hin.
  assert (Htl : ∀ e, e ∈ tail → ∃ n c, e = WriteFile n c).
  { intros e He. destruct Htail as [[-> _]|[-> _]].
    - by apply elem_of_nil in He.
    - apply list_elem_of_singleton in He as ->. eauto. }
  assert (Hrest : ∀ r', GetAllBreeds r' ∉ evs' ++ tail).
  { intros r' [H|H]%elem_of_app.
    - by eapply breeds_trace_not_listing.
    - by destruct (Htl _ H) as (n & c & [=]). }
  apply elem_of_app in Hin as [Hin|Hin]; [|by apply Hrest in Hin].
  apply aborted_listing in Hin; [|done]. subst head.
  exists (evs' ++ tail). split; [done|]. split; [done|].
  intros p ok Hp [H|H]%elem_of_app.
  - by eapply breeds_trace_not_init.
  - by destruct (Htl _ H) as (n & c & [=]).
Qed.

Lemma prelude_app_inj r r' rest rest' :
  prelude r ++ rest = prelude r' ++ rest' → r = r' ∧ rest = rest'.
Proof. unfold prelude. simpl. by intros [= -> ->]. Qed.

Section Stages.

Context {W : Type} (net : Net W).

(** X1.  Init failure is fatal: a run in which the request for the root
    folder [/PY-130(API)], or for [/PY-130(API)/dog_images], was refused
    returns right after that request, with no fault: the catalog is not
    queried, no record is made and no file is written. *)
Theorem init_failure_stops_the_run target_breed w fs p :
  p = "/PY-130(API)" ∨ p = "/PY-130(API)/dog_images" →
  CreateFolder p false ∈ trace (run net target_breed (init w fs)).2 →
  (run net target_breed (init w fs)).1 = Return tt
  ∧ trace (run net target_breed (init w fs)).2
    = (if String.eqb p "/PY-130(API)" then [CreateFolder p false]
       else [CreateFolder "/PY-130(API)" true; CreateFolder p false])
  ∧ results (run net target_breed (init w fs)).2 = []
  ∧ files (run net target_breed (init w fs)).2 = fs.
Proof.
  intros Hp.
  destruct (run_eq net target_breed w fs)
    as (out & evs & recs & fs' & w' & -> & Htr).
  simpl. intros Hin.
  assert (Hloop : ∀ items out' evs', breeds_trace items out' evs' recs →
                    CreateFolder p false ∉ evs').
  { intros items out' evs' Hbs. by eapply breeds_trace_not_init. }
  assert (Hpre : ∀ r, CreateFolder p false ∉ prelude r).
  { intros r. unfold prelude. rewrite !elem_of_cons, elem_of_nil.
    by intros [[=]|[[=]|[[=]|[]]]]. }
  destruct Htr as [| |e0|d Hd|d br Hd Ht Hbr|d s Hd Ht Hc|d s Hd Ht
                   |d m' items e evs' recs' Hd Hsel Hbs
                   |d m' items evs' recs' Hd Hsel Hbs];
    try by apply Hpre in Hin.
  - by apply list_elem_of_singleton in Hin as [= ->].
  - rewrite !elem_of_cons, elem_of_nil in Hin.
    by destruct Hin as [[=]|[[= ->]|[]]].
  - apply elem_of_app in Hin as [Hin|Hin]; [by apply Hpre in Hin|].
    by eapply Hloop in Hin.
  - apply elem_of_app in Hin as [Hin|Hin]; [by apply Hpre in Hin|].
    apply elem_of_app in Hin as [Hin|Hin]; [by eapply Hloop in Hin|].
    by apply list_elem_of_singleton in Hin.
Qed.

(** X2.  A run whose listing has no [message] stops right after the
    listing, without a fault: the guard of [run] keeps the subscript
    [breeds_data['message']] from raising.  No breed is processed, no record
    is made and the manifest is not written. *)
Theorem listing_without_message_aborts target_breed w fs data :
  GetAllBreeds (Return data) ∈ trace (run net target_breed (init w fs)).2 →
  Dict.get "message" data = None →
  (run net target_breed (init w fs)).1 = Return tt
  ∧ trace (run net target_breed (init w fs)).2
    = [CreateFolder "/PY-130(API)" true;
       CreateFolder "/PY-130(API)/dog_images" true; GetAllBreeds (Return data)]
  ∧ results (run net target_breed (init w fs)).2 = []
  ∧ files (run net target_breed (init w fs)).2 = fs.
Proof.
  destruct (run_eq net target_breed w fs)
    as (out & evs & recs & fs' & w' & -> & Htr).
  simpl. intros Hin Hnone.
  destruct (run_trace_listing _ _ _ _ _ _ _ Htr Hin) as (rest & Hevs & _ & _).
  assert (Hd : ∀ d rest', evs = prelude (Return d) ++ rest' → d = data).
  { intros d rest' Heq. rewrite Heq in Hevs.
    by apply prelude_app_inj in Hevs as [[= ->] _]. }
  destruct Htr as [| |e0|d Hd'|d br Hd' Ht Hbr|d s Hd' Ht Hc|d s Hd' Ht
                   |d m' items e evs' recs' Hd' Hsel Hbs
                   |d m' items evs' recs' Hd' Hsel Hbs];
    try discriminate Hevs;
    try (rewrite (Hd d []) in * by (by rewrite app_nil_r));
    try (rewrite (Hd d evs') in * by done);
    try (rewrite (Hd d (evs' ++ [WriteFile manifest (Json.dump recs')])) in * by done);
    try congruence.
  done.
Qed.


End Stages.

(** ** The exceptions that escape *)

Section Faults.

Context {W : Type} (net : Net W).




Lemma raises_weaken {A} (P Q : exn → Prop) (m : M A) :
  (∀ e, P e → Q e) → raises_only W P m → raises_only W Q m.
Proof. intros HPQ Hm st e H. by eapply HPQ, Hm. Qed.












End Faults.

(** ** The manifest, the listing and the folders of a run *)

Lemma aborted_not_write head n c : aborted head → WriteFile n c ∉ head.
Proof. intros Hab Hin. exact (aborted_other _ _ Hab Hin). Qed.

Lemma folder_requests_app evs evs' :
  folder_requests (evs ++ evs') = folder_requests evs ++ folder_requests evs'.
Proof. apply omap_app. Qed.

Lemma folder_requests_none evs :
  Forall (λ e, ∀ p ok, e ≠ CreateFolder p ok) evs → folder_requests evs = [].
Proof.
  induction 1 as [|e evs He _ IH]; [done|].
  destruct e as [p ok| | | |]; [by destruct (He p ok)|exact IH..].
Qed.

Lemma folder_requests_breed b subs out evs recs :
  breed_trace b subs out evs recs → folder_requests evs = [folder_of b].
Proof.
  assert (Hres : ∀ qs rs, folder_requests (resolutions b qs rs) = []).
  { intros qs rs. apply folder_requests_none, Forall_forall. intros e He.
    by apply resolutions_elem_of in He as (q & r & -> & _). }
  assert (Hup : ∀ imgs oks,
             folder_requests (zip_with (upload_of (folder_of b)) imgs oks) = []).
  { intros imgs oks. apply folder_requests_none, Forall_forall. intros e He.
    by apply elem_of_zip_with in He as (img & ok & -> & _). }
  intros [|rs e Hlen Hlast|rs oks Hlen Hret Hoks|rs oks Hlen Hret Hoks].
  - done.
  - change (CreateFolder (folder_of b) true :: ?l)
      with ([CreateFolder (folder_of b) true] ++ l).
    by rewrite folder_requests_app, Hres.
  - change (CreateFolder (folder_of b) true :: ?l)
      with ([CreateFolder (folder_of b) true] ++ l).
    by rewrite !folder_requests_app, Hres, Hup.
  - change (CreateFolder (folder_of b) true :: ?l)
      with ([CreateFolder (folder_of b) true] ++ l).
    by rewrite !folder_requests_app, Hres, Hup.
Qed.

(** The loop over the breeds asks for the folders of the breeds in their
    order, one request per breed, up to the breed at which it stops. *)
Lemma folder_requests_breeds items out evs recs :
  breeds_trace items out evs recs →
  ∃ k, folder_requests evs = folder_of <$> take k items.*1
       ∧ (out = Return tt → k = length items).
Proof.
  induction 1 as [|b subs rest e evs recs Hb
                  |b subs rest out evs recs evs' recs' Hb Hbs IH].
  - by exists 0%nat.
  - exists 1%nat. split; [|done]. simpl. by eapply folder_requests_breed.
  - destruct IH as (k & Hk & Hout). exists (S k). split.
    + rewrite folder_requests_app, (folder_requests_breed _ _ _ _ _ Hb), Hk. done.
    + intros ->. simpl. by rewrite Hout.
Qed.

Lemma folder_requests_aborted head :
  aborted head →
  head = [CreateFolder root_folder false] ∧ folder_requests head = [root_folder]
  ∨ folder_requests head = [root_folder; images_folder].
Proof. intros [->|[->|[data ->]]]; [by left|by right..]. Qed.

Lemma breed_trace_records_url b subs out evs recs :
  breed_trace b subs out evs recs →
  ∀ r, r ∈ recs →
    ∃ u q ok, r = result_of (folder_of b) (ImgData u b q) ok ∧ u ≠ EmptyString.
Proof.
  intros [|rs e Hlen Hlast|rs oks Hlen Hret Hoks|rs oks Hlen Hret Hoks] r Hr;
    [by apply elem_of_nil in Hr..| |].
  all: apply elem_of_zip_with in Hr as (img & ok & -> & Himg & _).
  all: unfold candidates in Himg.
  all: apply list_elem_of_omap in Himg as (c & Hc & Hsome); simpl in Hsome; subst c.
  all: apply elem_of_zip_with in Hc as (q & o & Hco & _ & _).
  all: unfold candidate_of in Hco.
  all: destruct o as [[u|]|]; try done; destruct (Str.truthy u) eqn:Hu; [|done].
  all: injection Hco as Heq; subst img; exists u, q, ok; split; [done|]; by intros ->.
Qed.

Lemma result_of_well_formed b u q ok :
  u ≠ EmptyString → well_formed (result_of (folder_of b) (ImgData u b q) ok).
Proof.
  intros Hu. split; [done|].
  exists b, (filename_of (ImgData u b q)), u. repeat split; try done.
  destruct ok; [by left|by right].
Qed.

Lemma breeds_trace_well_formed items out evs recs :
  breeds_trace items out evs recs → Forall well_formed recs.
Proof.
  induction 1 as [|b subs rest e evs recs Hb
                  |b subs rest out evs recs evs' recs' Hb Hbs IH].
  - constructor.
  - apply Forall_forall. intros r Hr.
    destruct (breed_trace_records_url _ _ _ _ _ Hb r Hr) as (u & q & ok & -> & Hu).
    by apply result_of_well_formed.
  - apply Forall_app. split; [|done].
    apply Forall_forall. intros r Hr.
    destruct (breed_trace_records_url _ _ _ _ _ Hb r Hr) as (u & q & ok & -> & Hu).
    by apply result_of_well_formed.
Qed.

Lemma loop_listing d data evs' tail items out recs :
  breeds_trace items out evs' recs →
  (∀ e, e ∈ tail → ∃ n c, e = WriteFile n c) →
  GetAllBreeds (Return data) ∈ prelude (Return d) ++ evs' ++ tail →
  d = data.
Proof.
  intros Hbs Htail [H|H]%elem_of_app; [by apply prelude_listing in H as [= ->]|].
  apply elem_of_app in H as [H|H].
  - by apply (breeds_trace_not_listing _ _ _ _ _ Hbs) in H.
  - by destruct (Htail _ H) as (n & c & [=]).
Qed.

Section Invariants.

Context {W : Type} (net : Net W).

(** X5.  The manifest is the only file a run writes, it is written at
    most once, and the write is the last thing the run does: a run whose
    trace holds the write of a file returned without a fault, the file is
    [download_results.json], its content is [json.dump] of all the records of
    the run, and no event follows the write and no write precedes it. *)
Theorem manifest_is_written_once_at_the_end target_breed w fs n c :
  WriteFile n c ∈ trace (run net target_breed (init w fs)).2 →
  n = "download_results.json"
  ∧ c = Json.dump (results (run net target_breed (init w fs)).2)
  ∧ (run net target_breed (init w fs)).1 = Return tt
  ∧ files (run net target_breed (init w fs)).2 = <[n := c]> fs
  ∧ ∃ evs, trace (run net target_breed (init w fs)).2 = evs ++ [WriteFile n c]
           ∧ ∀ n' c', WriteFile n' c' ∉ evs.
Proof.
  destruct (run_eq net target_breed w fs)
    as (out & evs & recs & fs' & w' & -> & Htr).
  simpl. intros Hin.
  apply run_trace_split in Htr
    as (head & items & out' & evs' & tail & -> & Hab & Hbs & _ & Htail & _).
  assert (Hno : ∀ n' c', WriteFile n' c' ∉ head ++ evs').
  { intros n' c' [H|H]%elem_of_app.
    - by eapply aborted_not_write.
    - by eapply breeds_trace_not_write. }
  rewrite app_assoc in Hin. apply elem_of_app in Hin as [Hin|Hin];
    [by apply Hno in Hin|].
  destruct Htail as [[-> _]|(-> & -> & ->)]; [by apply elem_of_nil in Hin|].
  apply list_elem_of_singleton in Hin as [= -> ->].
  repeat split; try done.
  exists (head ++ evs'). by rewrite app_assoc.
Qed.

(** X6.  A run leaves every file other than [download_results.json] and
    the log [dog_downloader.log] as it found it. *)
Theorem other_files_are_untouched target_breed w fs name :
  name ≠ "download_results.json" →
  name ≠ "dog_downloader.log" →
  files (run net target_breed (init w fs)).2 !! name = fs !! name.
Proof.
  destruct (run_eq net target_breed w fs)
    as (out & evs & recs & fs' & w' & -> & Htr).
  simpl. intros Hne _.
  apply run_trace_split in Htr
    as (head & items & out' & evs' & tail & -> & Hab & Hbs & _ & Htail & _).
  destruct Htail as [[_ ->]|(_ & -> & _)]; [done|].
  by rewrite lookup_insert_ne.
Qed.

(** X7.  The catalog is listed at most once in a run, and only after both
    root folders were created: a trace that holds a call of
    [get_all_breeds] starts with the two successful folder requests and
    that call, and what follows holds no other listing and no other request
    for a root folder. *)
Theorem listing_once_after_init target_breed w fs r :
  GetAllBreeds r ∈ trace (run net target_breed (init w fs)).2 →
  ∃ rest,
    trace (run net target_breed (init w fs)).2
    = [CreateFolder "/PY-130(API)" true;
       CreateFolder "/PY-130(API)/dog_images" true; GetAllBreeds r] ++ rest
    ∧ (∀ r', GetAllBreeds r' ∉ rest)
    ∧ (∀ ok, CreateFolder "/PY-130(API)" ok ∉ rest)
    ∧ (∀ ok, CreateFolder "/PY-130(API)/dog_images" ok ∉ rest).
Proof.
  destruct (run_eq net target_breed w fs)
    as (out & evs & recs & fs' & w' & -> & Htr).
  simpl. intros Hin.
  destruct (run_trace_listing _ _ _ _ _ _ _ Htr Hin) as (rest & -> & Hl & Hf).
  exists rest. split; [done|]. split; [done|].
  split; intros ok; apply Hf; [by left|by right].
Qed.

(** X8.  A run for a requested breed touches that breed only: every
    record is a record of the breed, every image query is for it, and the
    folders requested are the two root folders and the folder of the breed,
    each at most once. *)
Theorem requested_breed_only t w fs :
  t ≠ EmptyString →
  Forall (record_for t) (results (run net (Some t) (init w fs)).2)
  ∧ (∀ b q r, GetBreedImage b q r ∈ trace (run net (Some t) (init w fs)).2 → b = t)
  ∧ folder_requests (trace (run net (Some t) (init w fs)).2)
    `prefix_of` ["/PY-130(API)"; "/PY-130(API)/dog_images";
                 "/PY-130(API)/dog_images/" +:+ t].
Proof.
  intros Ht.
  destruct (run_eq net (Some t) w fs)
    as (out & evs & recs & fs' & w' & -> & Htr).
  simpl.
  apply run_trace_split in Htr
    as (head & items & out' & evs' & tail & -> & Hab & Hbs & Hitems & Htail & _).
  assert (Htl : folder_requests tail = [] ∧ ∀ b q r, GetBreedImage b q r ∉ tail).
  { destruct Htail as [[-> _]|[-> _]]; (split; [done|]); intros b q r H.
    - by apply elem_of_nil in H.
    - by apply list_elem_of_singleton in H. }
  destruct Htl as [Htl1 Htl2].
  assert (Hhd : ∀ b q r, GetBreedImage b q r ∉ head).
  { intros b q r H. exact (aborted_other _ _ Hab H). }
  destruct Hitems as [->|(data & m & -> & Hm & Hsel)].
  - inversion Hbs; subst. split; [constructor|]. split.
    + intros b q r [H|H]%elem_of_app; [by apply Hhd in H|].
      by apply Htl2 in H.
    + simpl. rewrite folder_requests_app, Htl1, app_nil_r.
      destruct (folder_requests_aborted _ Hab) as [[_ ->]| ->].
      * by eexists.
      * by eexists.
  - unfold selection in Hsel. assert (truthy (Some t) = true) as Htt by by destruct t.
    rewrite Htt in Hsel. simpl in Hsel. destruct Hsel as (subs & Hget & ->).
    split; [|split].
    + apply breeds_trace_records in Hbs. eapply Forall_impl; [exact Hbs|].
      simpl. by intros r (b & ->%list_elem_of_singleton & Hr).
    + intros b q r [H|H]%elem_of_app; [by apply Hhd in H|].
      apply elem_of_app in H as [H|H]; [|by apply Htl2 in H].
      apply breeds_trace_events in Hbs. rewrite Forall_forall in Hbs.
      by destruct (Hbs _ H) as (b' & ->%list_elem_of_singleton & Hb').
    + rewrite !folder_requests_app, Htl1, app_nil_r.
      destruct (folder_requests_breeds _ _ _ _ Hbs) as (k & -> & _).
      change (folder_requests (prelude (Return data)))
        with [root_folder; images_folder].
      destruct k as [|k]; simpl; [by eexists|]. rewrite take_nil. by eexists.
Qed.

(** X9.  A run over all breeds asks for the folders in the order of the
    listing: after the two root folders, one request for each breed in the
    order of the listing's keys, none twice and none skipped, up to the
    breed at which a fault ended the run, and for every breed when the run
    returned. *)
Theorem breeds_are_visited_in_listing_order target_breed w fs data m :
  truthy target_breed = false →
  GetAllBreeds (Return data) ∈ trace (run net target_breed (init w fs)).2 →
  Dict.get "message" data = Some (Breeds m) →
  ∃ k,
    folder_requests (trace (run net target_breed (init w fs)).2)
    = "/PY-130(API)" :: "/PY-130(API)/dog_images"
      :: ((λ b, "/PY-130(API)/dog_images/" +:+ b) <$> take k (Dict.keys m))
    ∧ ((run net target_breed (init w fs)).1 = Return tt → k = length (Dict.keys m)).
Proof.
  intros Ht.
  destruct (run_eq net target_breed w fs)
    as (out & evs & recs & fs' & w' & -> & Htr).
  simpl. intros Hin Hm.
  inversion Htr as [| |e0|d Hd'|d br Hd' Ht' Hbr|d s Hd' Ht' Hc|d s Hd' Ht'
                    |d m' items e evs' recs' Hd' Hsel Hbs
                    |d m' items evs' recs' Hd' Hsel Hbs]; subst.
  - by apply list_elem_of_singleton in Hin.
  - rewrite !elem_of_cons, elem_of_nil in Hin. by destruct Hin as [|[|]].
  - by apply prelude_listing in Hin.
  - apply prelude_listing in Hin as [= ->].
    destruct Hd' as [->|Hd']; [done|congruence].
  - congruence.
  - congruence.
  - apply prelude_listing in Hin as [= ->]. congruence.
  - assert (d = data) as ->.
    { apply (loop_listing d data evs' [] items (Raise e) recs);
        [done|by intros ? ?%elem_of_nil|].
      by rewrite app_nil_r. }
    rewrite Hm in Hd'. injection Hd' as <-.
    unfold selection in Hsel. rewrite Ht in Hsel. subst items.
    destruct (folder_requests_breeds _ _ _ _ Hbs) as (k & Hk & _).
    exists k. split; [|done]. by rewrite folder_requests_app, Hk.
  - assert (d = data) as ->.
    { apply (loop_listing d data evs' [WriteFile manifest (Json.dump recs)]
               items (Return tt) recs); [done| |done].
      intros e' ->%list_elem_of_singleton. eauto. }
    rewrite Hm in Hd'. injection Hd' as <-.
    unfold selection in Hsel. rewrite Ht in Hsel. subst items.
    destruct (folder_requests_breeds _ _ _ _ Hbs) as (k & Hk & Hlen).
    exists k. split.
    + rewrite !folder_requests_app, Hk. simpl. by rewrite app_nil_r.
    + intros _. rewrite Hlen by done. unfold Dict.items, Dict.keys.
      by rewrite length_fmap.
Qed.

(** X10.  Every record of a run has the six keys [breed], [sub_breed],
    [filename], [original_url], [disk_path] and [status], in this order; its
    source URL is not empty; its destination is its filename in the folder
    of its breed; and its status is [success] or [error]. *)
Theorem records_are_well_formed target_breed w fs :
  Forall well_formed (results (run net target_breed (init w fs)).2).
Proof.
  destruct (run_eq net target_breed w fs)
    as (out & evs & recs & fs' & w' & -> & Htr).
  simpl.
  apply run_trace_split in Htr
    as (head & items & out' & evs' & tail & -> & Hab & Hbs & _).
  by eapply breeds_trace_well_formed.
Qed.

End Invariants.

(** ** The order of the calls for a breed *)

Lemma resolutions_queries b qs rs : Forall (is_query b) (resolutions b qs rs).
Proof.
  apply Forall_forall. intros e He.
  by apply resolutions_elem_of in He as (q & r & -> & _).
Qed.

Lemma uploads_are_uploads folder_path imgs oks :
  Forall is_upload (zip_with (upload_of folder_path) imgs oks).
Proof.
  apply Forall_forall. intros e He.
  by apply elem_of_zip_with in He as (img & ok & -> & _).
Qed.

Lemma candidates_length b qs rs :
  (length (candidates b qs rs) ≤ length (resolutions b qs rs))%nat.
Proof.
  unfold candidates, resolutions, omap. revert rs.
  induction qs as [|q qs IH]; intros [|r rs]; simpl; try lia.
  specialize (IH rs). destruct (candidate_of b q r); simpl; lia.
Qed.

Lemma resolutions_length b qs rs :
  (length (resolutions b qs rs) ≤ length qs)%nat.
Proof. unfold resolutions. rewrite length_zip_with. lia. Qed.

Lemma queries_length subs :
  length (queries subs) = match subs with [] => 1%nat | _ :: _ => length subs end.
Proof. destruct subs; simpl; [done|]. by rewrite length_fmap. Qed.

(** A candidate comes from a query that returned its URL. *)
Lemma candidates_elem_of b qs rs img :
  img ∈ candidates b qs rs →
  ∃ q u, img = ImgData u b q ∧ u ≠ EmptyString
         ∧ GetBreedImage b q (Return (Some u)) ∈ resolutions b qs rs.
Proof.
  unfold candidates, resolutions. intros Himg.
  apply list_elem_of_omap in Himg as (c & Hc & Hsome). simpl in Hsome. subst c.
  apply elem_of_lookup_zip_with in Hc as (i & q & r & Hco & Hq & Hr).
  unfold candidate_of in Hco.
  destruct r as [[u|]|]; try done. destruct (Str.truthy u) eqn:Hu; [|done].
  injection Hco as Heq. subst img. exists q, u. split; [done|].
  split; [by intros ->|].
  apply elem_of_lookup_zip_with. by exists i, q, (Return (Some u)).
Qed.

Lemma breed_trace_upload_order b subs out evs recs u p ok :
  breed_trace b subs out evs recs → UploadFile u p ok ∈ evs →
  ∃ q l2 l3 l4,
    evs = CreateFolder (folder_of b) true
          :: l2 ++ GetBreedImage b q (Return (Some u))
          :: l3 ++ UploadFile u p ok :: l4
    ∧ p = disk_path_of (ImgData u b q) (folder_of b)
    ∧ u ≠ EmptyString.
Proof.
  intros [|rs e Hlen Hlast|rs oks Hlen Hret Hoks|rs oks Hlen Hret Hoks] Hin.
  - by apply list_elem_of_singleton in Hin.
  - apply elem_of_cons in Hin as [[=]|Hin].
    by apply resolutions_elem_of in Hin as (q & r & [=] & _).
  - apply elem_of_cons in Hin as [[=]|Hin].
    apply elem_of_app in Hin as [Hin|Hin];
      [by apply resolutions_elem_of in Hin as (q & r & [=] & _)|].
    destruct (list_elem_of_split _ _ Hin) as (u1 & u2 & Hsplit).
    apply elem_of_zip_with in Hin as (img & ok' & Heq & Himg & _).
    apply candidates_elem_of in Himg as (q & u' & -> & Hu & Hq).
    unfold upload_of in Heq. simpl in Heq. injection Heq as -> -> ->.
    destruct (list_elem_of_split _ _ Hq) as (r1 & r2 & Hr).
    exists q, r1, (r2 ++ u1), u2. split; [|done].
    rewrite Hsplit, Hr. by repeat (rewrite <- app_assoc; simpl).
  - apply elem_of_cons in Hin as [[=]|Hin].
    apply elem_of_app in Hin as [Hin|Hin];
      [by apply resolutions_elem_of in Hin as (q & r & [=] & _)|].
    destruct (list_elem_of_split _ _ Hin) as (u1 & u2 & Hsplit).
    apply elem_of_zip_with in Hin as (img & ok' & Heq & Himg & _).
    apply candidates_elem_of in Himg as (q & u' & -> & Hu & Hq).
    unfold upload_of in Heq. simpl in Heq. injection Heq as -> -> ->.
    destruct (list_elem_of_split _ _ Hq) as (r1 & r2 & Hr).
    exists q, r1, (r2 ++ u1), u2. split; [|done].
    rewrite Hsplit, Hr. by repeat (rewrite <- app_assoc; simpl).
Qed.

Lemma breeds_trace_upload_order items out evs recs u p ok :
  breeds_trace items out evs recs → UploadFile u p ok ∈ evs →
  ∃ b q l1 l2 l3 l4,
    evs = l1 ++ CreateFolder (folder_of b) true
          :: l2 ++ GetBreedImage b q (Return (Some u))
          :: l3 ++ UploadFile u p ok :: l4
    ∧ p = disk_path_of (ImgData u b q) (folder_of b)
    ∧ u ≠ EmptyString.
Proof.
  induction 1 as [|b subs rest e evs recs Hb
                  |b subs rest out evs recs evs' recs' Hb Hbs IH]; intros Hin.
  - by apply elem_of_nil in Hin.
  - destruct (breed_trace_upload_order _ _ _ _ _ _ _ _ Hb Hin)
      as (q & l2 & l3 & l4 & -> & Hp & Hu).
    by exists b, q, [], l2, l3, l4.
  - apply elem_of_app in Hin as [Hin|Hin].
    + destruct (breed_trace_upload_order _ _ _ _ _ _ _ _ Hb Hin)
        as (q & l2 & l3 & l4 & -> & Hp & Hu).
      exists b, q, [], l2, l3, (l4 ++ evs'). split; [|done].
      simpl. by repeat (rewrite <- app_assoc; simpl).
    + destruct (IH Hin) as (b' & q & l1 & l2 & l3 & l4 & -> & Hp & Hu).
      exists b', q, (evs ++ l1), l2, l3, l4. split; [|done].
      by rewrite <- !app_assoc.
Qed.

(** The records of a breed follow its queries. *)
Lemma candidates_sublist b qs rs :
  (λ img, (Some (PStr (breed img)), Some (opt_val (sub_breed img))))
    <$> candidates b qs rs
  `sublist_of` (λ q, (Some (PStr b), Some (opt_val q))) <$> qs.
Proof.
  unfold candidates. revert rs.
  induction qs as [|q qs IH]; intros [|r rs]; simpl;
    try apply sublist_nil_l.
  unfold candidate_of at 1.
  destruct r as [[u|]|]; simpl; try (apply sublist_cons, IH).
  destruct (Str.truthy u); simpl; [|apply sublist_cons, IH].
  apply sublist_skip, IH.
Qed.

Lemma results_sublist folder_path imgs oks :
  record_key <$> zip_with (result_of folder_path) imgs oks
  `sublist_of` (λ img, (Some (PStr (breed img)), Some (opt_val (sub_breed img))))
               <$> imgs.
Proof.
  revert oks. induction imgs as [|img imgs IH]; intros [|ok oks]; simpl;
    try apply sublist_nil_l.
  apply (sublist_skip (record_key (result_of folder_path img ok))), IH.
Qed.

Lemma breed_trace_sublist b subs out evs recs :
  breed_trace b subs out evs recs →
  record_key <$> recs `sublist_of` listing_keys [(b, subs)].
Proof.
  unfold listing_keys. simpl. rewrite app_nil_r.
  intros [|rs e Hlen Hlast|rs oks Hlen Hret Hoks|rs oks Hlen Hret Hoks];
    try apply sublist_nil_l.
  all: etrans; [apply results_sublist|apply candidates_sublist].
Qed.

Lemma breeds_trace_sublist items out evs recs :
  breeds_trace items out evs recs →
  record_key <$> recs `sublist_of` listing_keys items.
Proof.
  induction 1 as [|b subs rest e evs recs Hb
                  |b subs rest out evs recs evs' recs' Hb Hbs IH].
  - done.
  - etrans; [by eapply breed_trace_sublist|].
    change ((b, subs) :: rest) with ([(b, subs)] ++ rest).
    unfold listing_keys. rewrite bind_app. by apply sublist_inserts_r.
  - rewrite fmap_app.
    change ((b, subs) :: rest) with ([(b, subs)] ++ rest).
    unfold listing_keys. rewrite bind_app.
    apply sublist_app; [|done]. by eapply breed_trace_sublist.
Qed.

Lemma dict_get_split {V} (d : dict V) k v :
  Dict.get k d = Some v → ∃ d1 d2, d = d1 ++ (k, v) :: d2.
Proof.
  induction d as [|[k' v'] d IH]; simpl; [done|].
  destruct (String.eqb_spec k k') as [->|Hne].
  - intros [= ->]. by exists [], d.
  - intros (d1 & d2 & ->)%IH. by exists ((k', v') :: d1), d2.
Qed.

Lemma selection_sublist target_breed m items :
  selection target_breed m items →
  listing_keys items `sublist_of` listing_keys (Dict.items m).
Proof.
  unfold selection. destruct (truthy target_breed); [|by intros ->].
  intros (subs & Hget & ->).
  apply dict_get_split in Hget as (d1 & d2 & ->).
  unfold Dict.items, listing_keys.
  change ((opt_str target_breed, subs) :: d2)
    with ([(opt_str target_breed, subs)] ++ d2).
  rewrite !bind_app. apply sublist_inserts_l, sublist_inserts_r. done.
Qed.

(** No breed gets more records than it has queries. *)
Lemma breed_trace_bound b subs out evs recs :
  breed_trace b subs out evs recs → (length recs ≤ length (queries subs))%nat.
Proof.
  intros [|rs e Hlen Hlast|rs oks Hlen Hret Hoks|rs oks Hlen Hret Hoks];
    simpl; try lia.
  all: rewrite length_zip_with.
  all: pose proof (candidates_length b (queries subs) rs).
  all: pose proof (resolutions_length b (queries subs) rs); lia.
Qed.

Lemma breeds_trace_bound items out evs recs b subs :
  breeds_trace items out evs recs → NoDup items.*1 → (b, subs) ∈ items →
  (length (filter (record_for b) recs) ≤ length (queries subs))%nat.
Proof.
  induction 1 as [|b' subs' rest e evs recs Hb
                  |b' subs' rest out evs recs evs' recs' Hb Hbs IH];
    intros Hnd Hin.
  - by apply elem_of_nil in Hin.
  - simpl in Hnd. apply NoDup_cons in Hnd as [Hb' Hnd].
    apply elem_of_cons in Hin as [[= -> ->]|Hin].
    + rewrite filter_record_for_all by by eapply breed_trace_record_for.
      by eapply breed_trace_bound.
    + assert (b ≠ b') as Hne.
      { intros ->. apply Hb'. apply list_elem_of_fmap. by exists (b', subs). }
      rewrite (filter_record_for_none b' b) by
        (done || by eapply breed_trace_record_for).
      simpl. lia.
  - simpl in Hnd. apply NoDup_cons in Hnd as [Hb' Hnd].
    rewrite filter_app, length_app.
    apply elem_of_cons in Hin as [[= -> ->]|Hin].
    + destruct (breeds_trace_absent _ _ _ _ b' Hbs Hb') as [_ ->].
      rewrite filter_record_for_all by by eapply breed_trace_record_for.
      simpl. rewrite Nat.add_0_r. by eapply breed_trace_bound.
    + assert (b ≠ b') as Hne.
      { intros ->. apply Hb'. apply list_elem_of_fmap. by exists (b', subs). }
      rewrite (filter_record_for_none b' b) by
        (done || by eapply breed_trace_record_for).
      simpl. by apply IH.
Qed.

Section Order.

Context {W : Type} (net : Net W).

(** X11.  The calls of [download_breed_images] come in three blocks:
    first the request for the folder of the breed, then the image queries,
    all for this breed and at most one per sub-breed (one, for a breed
    without sub-breeds), then the uploads, at most one per query and one
    per new record.  A refused folder leaves the other two blocks empty,
    and a query that raises leaves no upload. *)
Theorem folder_then_queries_then_uploads b sub_breeds st :
  ∃ ok asked uploaded added,
    trace (download_breed_images net b sub_breeds st).2
    = trace st ++ CreateFolder ("/PY-130(API)/dog_images/" +:+ b) ok
                  :: asked ++ uploaded
    ∧ results (download_breed_images net b sub_breeds st).2 = results st ++ added
    ∧ Forall (is_query b) asked
    ∧ Forall is_upload uploaded
    ∧ (length asked
       ≤ match sub_breeds with [] => 1 | _ :: _ => length sub_breeds end)%nat
    ∧ (length uploaded ≤ length asked)%nat
    ∧ length added = length uploaded
    ∧ (ok = false → asked = [])
    ∧ (∀ q e, GetBreedImage b q (Raise e) ∈ asked → uploaded = []).
Proof.
  destruct (download_breed_images_eq net b sub_breeds st)
    as (out & evs & recs & w & -> & Hb). simpl.
  assert (Hreturned : ∀ rs q e,
    Forall returns rs →
    GetBreedImage b q (Raise e) ∉ resolutions b (queries sub_breeds) rs).
  { intros rs q e Hret Hin.
    apply resolutions_elem_of in Hin as (q' & r & [= <- <-] & _ & Hr).
    rewrite Forall_forall in Hret. by apply Hret in Hr. }
  assert (Hblocks : ∀ rs oks,
    (length (zip_with (upload_of (folder_of b))
               (candidates b (queries sub_breeds) rs) oks)
     ≤ length (resolutions b (queries sub_breeds) rs))%nat
    ∧ length (zip_with (result_of (folder_of b))
                (candidates b (queries sub_breeds) rs) oks)
      = length (zip_with (upload_of (folder_of b))
                  (candidates b (queries sub_breeds) rs) oks)).
  { intros rs oks. rewrite !length_zip_with.
    pose proof (candidates_length b (queries sub_breeds) rs). lia. }
  destruct Hb as [|rs e Hlen Hlast|rs oks Hlen Hret Hoks|rs oks Hlen Hret Hoks].
  - exists false, [], [], []. split_and!; try done.
    simpl. destruct sub_breeds; simpl; lia.
  - exists true, (resolutions b (queries sub_breeds) rs), [], [].
    rewrite !app_nil_r. split_and!; try done.
    + apply resolutions_queries.
    + rewrite <- queries_length. apply resolutions_length.
    + simpl. lia.
  - exists true, (resolutions b (queries sub_breeds) rs),
      (zip_with (upload_of (folder_of b)) (candidates b (queries sub_breeds) rs) oks),
      (zip_with (result_of (folder_of b)) (candidates b (queries sub_breeds) rs) oks).
    destruct (Hblocks rs oks) as [Hle Heq]. split_and!; try done.
    + apply resolutions_queries.
    + apply uploads_are_uploads.
    + rewrite <- queries_length. apply resolutions_length.
    + intros q e Hin. by apply Hreturned in Hin.
  - exists true, (resolutions b (queries sub_breeds) rs),
      (zip_with (upload_of (folder_of b)) (candidates b (queries sub_breeds) rs) oks),
      (zip_with (result_of (folder_of b)) (candidates b (queries sub_breeds) rs) oks).
    destruct (Hblocks rs oks) as [Hle Heq]. split_and!; try done.
    + apply resolutions_queries.
    + apply uploads_are_uploads.
    + rewrite <- queries_length. apply resolutions_length.
    + intros q e Hin. by apply Hreturned in Hin.
Qed.

(** X12.  Nothing is uploaded that the catalog did not return, and nothing
    is uploaded into a folder that was not created: every upload request of
    a run comes after an image query for some breed that returned the
    uploaded URL, which comes after the successful request for the folder
    of that breed; the URL is not empty and the destination is the file of
    the naming rule in that folder. *)
Theorem uploads_follow_folder_and_query target_breed w fs u p ok :
  UploadFile u p ok ∈ trace (run net target_breed (init w fs)).2 →
  u ≠ EmptyString
  ∧ ∃ b q l1 l2 l3 l4,
      trace (run net target_breed (init w fs)).2
      = l1 ++ CreateFolder ("/PY-130(API)/dog_images/" +:+ b) true
        :: l2 ++ GetBreedImage b q (Return (Some u))
        :: l3 ++ UploadFile u p ok :: l4
      ∧ p = ("/PY-130(API)/dog_images/" +:+ b) +:+ "/" +:+ filename_of (ImgData u b q).
Proof.
  destruct (run_eq net target_breed w fs)
    as (out & evs & recs & fs' & w' & -> & Htr).
  simpl. intros Hin.
  apply run_trace_split in Htr
    as (head & items & out' & evs' & tail & -> & Hab & Hbs & _ & Htail & _).
  assert (Hev : UploadFile u p ok ∈ evs').
  { apply elem_of_app in Hin as [H|H]; [by destruct (aborted_other _ _ Hab H)|].
    apply elem_of_app in H as [H|H]; [done|].
    destruct Htail as [[-> _]|[-> _]].
    - by apply elem_of_nil in H.
    - by apply list_elem_of_singleton in H. }
  destruct (breeds_trace_upload_order _ _ _ _ _ _ _ Hbs Hev)
    as (b & q & l1 & l2 & l3 & l4 & -> & Hp & Hu).
  split; [done|].
  exists b, q, (head ++ l1), l2, l3, (l4 ++ tail). split; [|done].
  by repeat (rewrite <- app_assoc; simpl).
Qed.

(** X13.  The records of a run follow the listing: their [breed] and
    [sub_breed] fields, in the order of [self.results], are a subsequence
    of the pairs that the listing gives, breed by breed in the order of its
    keys and sub-breed by sub-breed in the order of each list (a breed
    without sub-breeds gives one pair, with [None]).  Records are left
    out, never reordered or made up. *)
Theorem records_follow_the_listing target_breed w fs data m :
  GetAllBreeds (Return data) ∈ trace (run net target_breed (init w fs)).2 →
  Dict.get "message" data = Some (Breeds m) →
  record_key <$> results (run net target_breed (init w fs)).2
  `sublist_of` listing_keys (Dict.items m).
Proof.
  destruct (run_eq net target_breed w fs)
    as (out & evs & recs & fs' & w' & -> & Htr).
  simpl. intros Hin Hm.
  apply run_trace_split in Htr
    as (head & items & out' & evs' & tail & -> & Hab & Hbs & Hitems & Htail & _).
  destruct Hitems as [->|(d & m' & -> & Hd & Hsel)].
  - inversion Hbs; subst. apply sublist_nil_l.
  - assert (d = data) as ->.
    { apply (loop_listing d data evs' tail items out' recs); [done| |done].
      intros e He. destruct Htail as [[-> _]|[-> _]].
      - by apply elem_of_nil in He.
      - apply list_elem_of_singleton in He as ->. eauto. }
    rewrite Hm in Hd. injection Hd as <-.
    etrans; [by eapply breeds_trace_sublist|by eapply selection_sublist].
Qed.

(** X14.  A run never makes more records for a breed than the listing
    gives it sub-breeds, or one for a breed without sub-breeds; and it
    makes none for a breed that the listing does not hold. *)
Theorem at_most_one_record_per_sub_breed target_breed w fs data m b :
  GetAllBreeds (Return data) ∈ trace (run net target_breed (init w fs)).2 →
  Dict.get "message" data = Some (Breeds m) →
  NoDup (Dict.keys m) →
  (length (filter (record_for b) (results (run net target_breed (init w fs)).2))
   ≤ match Dict.get b m with
     | Some [] => 1
     | Some (s :: sub_breeds) => length (s :: sub_breeds)
     | None => 0
     end)%nat.
Proof.
  destruct (run_eq net target_breed w fs)
    as (out & evs & recs & fs' & w' & -> & Htr).
  simpl. intros Hin Hm Hnd.
  apply run_trace_split in Htr
    as (head & items & out' & evs' & tail & -> & Hab & Hbs & Hitems & Htail & _).
  destruct Hitems as [->|(d & m' & -> & Hd & Hsel)].
  - inversion Hbs; subst. simpl. lia.
  - assert (d = data) as ->.
    { apply (loop_listing d data evs' tail items out' recs); [done| |done].
      intros e He. destruct Htail as [[-> _]|[-> _]].
      - by apply elem_of_nil in He.
      - apply list_elem_of_singleton in He as ->. eauto. }
    rewrite Hm in Hd. injection Hd as <-.
    destruct (selection_items _ _ _ Hsel Hnd) as [Hnd' Hget].
    destruct (decide (b ∈ items.*1)) as [Hb|Hb].
    + apply list_elem_of_fmap in Hb as ([b' subs] & -> & Hb). simpl.
      rewrite (Hget _ _ Hb).
      pose proof (breeds_trace_bound _ _ _ _ _ _ Hbs Hnd' Hb) as Hle.
      rewrite queries_length in Hle. by destruct subs.
    + destruct (breeds_trace_absent _ _ _ _ b Hbs Hb) as [_ ->]. simpl. lia.
Qed.

End Order.

(** ** What [get_breed_image] returns *)

Section Image.

Context {W : Type} (net : Net W).

(** X15.  [get_breed_image] makes one request, to
    [{base_url}/breed/{breed}/{sub_breed}/images/random] for a non-empty
    sub-breed and to [{base_url}/breed/{breed}/images/random] otherwise, and
    it returns a URL exactly when the answer has the status code 200 and a
    JSON payload whose [status] is [success]: the URL is the [message] of
    the payload.  It leaves the records and the files alone. *)
Theorem image_url_iff_success b s st u :
  let url :=
    match s with
    | Some (String c s') =>
        "https://dog.ceo/api" +:+ "/breed/" +:+ b +:+ "/" +:+ String c s'
        +:+ "/images/random"
    | _ => "https://dog.ceo/api" +:+ "/breed/" +:+ b +:+ "/images/random"
    end in
  ((get_breed_image net b s st).1 = Return (Some u)
   ↔ status_code (get_image net url (world st)).1 = 200
     ∧ ∃ data, json (get_image net url (world st)).1 = Some data
               ∧ Dict.get "status" data = Some "success"
               ∧ Dict.get "message" data = Some u)
  ∧ world (get_breed_image net b s st).2 = (get_image net url (world st)).2
  ∧ results (get_breed_image net b s st).2 = results st
  ∧ files (get_breed_image net b s st).2 = files st.
Proof.
  intros url.
  assert (Hurl : random_image_url b s = url) by by destruct s as [[|c s']|].
  split; [|].
  - rewrite get_breed_image_outcome. simpl. rewrite Hurl.
    destruct (Z.eqb_spec (status_code (get_image net url (world st)).1) 200)
      as [Hc|Hc]; [|split; [done|by intros [? _]]].
    destruct (json _) as [data|]; [|split; [done|by intros (_ & ? & [=] & _)]].
    split.
    + destruct (Dict.get "status" data) as [status|] eqn:Hs; [|done].
      destruct (String.eqb_spec status "success") as [->|]; [|done].
      destruct (Dict.get "message" data) as [m|] eqn:Hm; [|done].
      intros [= ->]. split; [done|]. by exists data.
    + intros (_ & data' & [= <-] & -> & ->). done.
  - unfold get_breed_image, traced, bind, requests_get_image.
    change (if truthy s
            then base_url +:+ "/breed/" +:+ b +:+ "/" +:+ opt_str s +:+ "/images/random"
            else base_url +:+ "/breed/" +:+ b +:+ "/images/random")
      with (random_image_url b s).
    rewrite Hurl.
    destruct (get_image net url (world st)) as [r w]; simpl.
    destruct (status_code r =? 200); [|done].
    unfold response_json. destruct (json r) as [data|]; simpl; [|done].
    unfold subscript.
    destruct (Dict.get "status" data); simpl; [|done].
    destruct (String.eqb _ _); simpl; [|done].
    by destruct (Dict.get "message" data).
Qed.


(** X20.  A catalog that does not answer the listing with the status code
    200 stops the run quietly, whatever the body of its answer: with both
    root folders created, [get_all_breeds] returns the empty dict without
    decoding the body, and [run] returns after these three requests, with
    no record and no file written. *)
Theorem unavailable_catalog_stops_the_run target_breed w fs :
  let w1 := (put net "/PY-130(API)" w).2 in
  let w2 := (put net "/PY-130(API)/dog_images" w1).2 in
  (put net "/PY-130(API)" w).1 = 201 ∨ (put net "/PY-130(API)" w).1 = 409 →
  (put net "/PY-130(API)/dog_images" w1).1 = 201
  ∨ (put net "/PY-130(API)/dog_images" w1).1 = 409 →
  status_code (get_breeds net "https://dog.ceo/api/breeds/list/all" w2).1 ≠ 200 →
  run net target_breed (init w fs)
  = (Return tt,
     State (get_breeds net "https://dog.ceo/api/breeds/list/all" w2).2 [] fs
       [CreateFolder "/PY-130(API)" true;
        CreateFolder "/PY-130(API)/dog_images" true;
        GetAllBreeds (Return [])]).
Proof.
  intros w1 w2 H1 H2 H3. unfold run, bind, init. rewrite create_folder_eq. simpl.
  unfold created. rewrite (bool_decide_eq_true_2 _ H1). simpl.
  rewrite create_folder_eq. simpl.
  unfold created. fold w1. rewrite (bool_decide_eq_true_2 _ H2). simpl.
  unfold get_all_breeds, traced, bind, requests_get_breeds. simpl.
  change (base_url +:+ "/breeds/list/all") with "https://dog.ceo/api/breeds/list/all".
  fold w2.
  destruct (get_breeds net "https://dog.ceo/api/breeds/list/all" w2) as [r w3].
  simpl in *. destruct (Z.eqb_spec (status_code r) 200) as [|_]; [done|].
  reflexivity.
Qed.

End Image.

(** ** The command line *)

Section CommandLine.

#[local] Arguments times : simpl never.

Context {W : Type}.
Variable strip : string → string.
Variable lower : string → string.
Variable str : exn → string.
Variable net : string → Net W.

(** X16.  No fault of the run escapes [main]: the only exception that
    [main] lets through is the [EOFError] of [input], when the input ends
    before the breed, or before the token after a breed that is not
    empty. *)
Theorem only_the_end_of_input_escapes_main c w fs :
  uncaught (main strip lower str net c w fs)
  = match stdin c with
    | [] => Some EOFError
    | [line] => if Str.truthy (lower (strip line)) then Some EOFError else None
    | _ :: _ :: _ => None
    end.
Proof.
  unfold main, input, print. simpl.
  destruct (stdin c) as [|line [|line2 rest]]; simpl; [done| |].
  - by destruct (Str.truthy (lower (strip line))).
  - destruct (Str.truthy (lower (strip line))); simpl; [|done].
    destruct (Str.truthy (strip line2)); simpl; [|done].
    by destruct (run _ _ _) as [[[]|e] st].
Qed.

(** X17.  [main] makes no [DogImageDownloader], and so no request, for an
    empty breed or an empty token: when the first line of the input is
    empty once stripped and lowered, [main] prints that the breed cannot be
    empty and returns without reading the token; when the second is empty
    once stripped, it prints that the token cannot be empty and returns. *)
Theorem empty_input_makes_no_request c w fs line rest :
  stdin c = line :: rest →
  lower (strip line) = EmptyString
  ∨ (∃ line2 rest', rest = line2 :: rest' ∧ strip line2 = EmptyString) →
  downloader (main strip lower str net c w fs) = None
  ∧ uncaught (main strip lower str net c w fs) = None
  ∧ stdin (console_after (main strip lower str net c w fs))
    = (if Str.truthy (lower (strip line)) then tail rest else rest)
  ∧ last (stdout (console_after (main strip lower str net c w fs)))
    = Some ((if Str.truthy (lower (strip line))
             then "Ошибка: Токен не может быть пустым!"
             else "Ошибка: Порода не может быть пустой!") +:+ Str.nl).
Proof.
  intros Hin Hempty. unfold main, input, print. simpl. rewrite Hin. simpl.
  destruct (Str.truthy (lower (strip line))) eqn:Hb; simpl.
  - destruct Hempty as [He|(line2 & rest' & -> & He)];
      [by rewrite He in Hb|].
    simpl. rewrite He. simpl. split_and!; try done. by rewrite last_snoc.
  - split_and!; try done. by rewrite last_snoc.
Qed.

(** X18.  With a breed and a token that are not empty, [main] runs a fresh
    [DogImageDownloader] once, for the breed stripped and lowered and with
    the token stripped, and ends with a report that depends only on whether
    [run] raised: the four lines of the success report when it returned,
    whatever it did, and the two lines of the failure report, with the text
    of the exception, when it raised. *)
Theorem main_reports_how_the_run_ended c w fs line1 line2 rest :
  stdin c = line1 :: line2 :: rest →
  lower (strip line1) ≠ EmptyString →
  strip line2 ≠ EmptyString →
  downloader (main strip lower str net c w fs)
  = Some (run (net (strip line2)) (Some (lower (strip line1))) (init w fs))
  ∧ uncaught (main strip lower str net c w fs) = None
  ∧ stdin (console_after (main strip lower str net c w fs)) = rest
  ∧ ∃ before,
      stdout (console_after (main strip lower str net c w fs))
      = stdout c ++ before
        ++ match (run (net (strip line2)) (Some (lower (strip line1))) (init w fs)).1 with
           | Return _ => success_report (lower (strip line1))
           | Raise e => failure_report (str e)
           end.
Proof.
  intros Hin Hb Ht. unfold main, input, print. simpl. rewrite Hin. simpl.
  destruct (lower (strip line1)) as [|c1 breed] eqn:Hbreed; [done|]. simpl.
  destruct (strip line2) as [|c2 token] eqn:Htoken; [done|]. simpl.
  destruct (run _ _ _) as [[[]|e] st]; simpl.
  all: split_and!; try done.
  all: exists [times "=" 50 +:+ Str.nl;
               "Программа резервного копирования изображений собак" +:+ Str.nl;
               times "=" 50 +:+ Str.nl;
               "Введите породу собаки: ";
               "Введите токен Яндекс.Диска: ";
               (Str.nl +:+ "Запуск программы для породы: " +:+ String c1 breed)
                 +:+ Str.nl;
               ("Начинаем загрузку изображений..." +:+ Str.nl) +:+ Str.nl].
  all: rewrite <- !app_assoc; reflexivity.
Qed.

(** X19.  [main] announces saved results for every run that returns, also
    when the run stopped early: when the run that [main] makes returned
    without writing the manifest (a refused root folder, an unavailable
    catalog, a breed that the listing does not hold), the output still ends
    with the success report, with its line on the results saved in
    [download_results.json], while that file is as [main] found it: still
    missing if it was missing, and with its old content otherwise. *)
Theorem early_stop_is_reported_as_success c w fs line1 line2 rest :
  stdin c = line1 :: line2 :: rest →
  lower (strip line1) ≠ EmptyString →
  strip line2 ≠ EmptyString →
  (run (net (strip line2)) (Some (lower (strip line1))) (init w fs)).1 = Return tt →
  (∀ n content,
     WriteFile n content
     ∉ trace (run (net (strip line2)) (Some (lower (strip line1))) (init w fs)).2) →
  (∃ before,
     stdout (console_after (main strip lower str net c w fs))
     = before ++ success_report (lower (strip line1)))
  ∧ "Результаты сохранены в файле: download_results.json" +:+ Str.nl
    ∈ stdout (console_after (main strip lower str net c w fs))
  ∧ ∃ st, downloader (main strip lower str net c w fs) = Some (Return tt, st)
          ∧ files st !! "download_results.json" = fs !! "download_results.json".
Proof.
  intros Hin Hb Ht. unfold main, input, print. simpl. rewrite Hin. simpl.
  destruct (lower (strip line1)) as [|c1 breed] eqn:Hbreed; [done|]. simpl.
  destruct (strip line2) as [|c2 token] eqn:Htoken; [done|]. simpl.
  destruct (run_eq (net (String c2 token)) (Some (String c1 breed)) w fs)
    as (out & evs & recs & fs' & w' & -> & Htr).
  simpl. intros -> Hnw. simpl.
  split_and!.
  - exists (stdout c
            ++ [times "=" 50 +:+ Str.nl;
                "Программа резервного копирования изображений собак" +:+ Str.nl;
                times "=" 50 +:+ Str.nl;
                "Введите породу собаки: ";
                "Введите токен Яндекс.Диска: ";
                (Str.nl +:+ "Запуск программы для породы: " +:+ String c1 breed)
                  +:+ Str.nl;
                ("Начинаем загрузку изображений..." +:+ Str.nl) +:+ Str.nl]).
    rewrite <- !app_assoc. reflexivity.
  - rewrite !elem_of_app, !list_elem_of_singleton. left. by right.
  - eexists. split; [reflexivity|]. simpl.
    apply run_trace_split in Htr
      as (head & items & out' & evs' & tail & -> & _ & _ & _ & Htail & _).
    destruct Htail as [[_ ->]|(-> & _ & _)]; [done|].
    exfalso. apply (Hnw manifest (Json.dump recs)).
    rewrite !elem_of_app, list_elem_of_singleton. by do 2 right.
Qed.

End CommandLine.

(** * Concrete runs *)

Module Runs.
Import Scenario.

(** Decides a closed, decidable statement by evaluation. *)
Ltac evaluate := apply (bool_decide_unpack _); vm_compute; exact I.

(** Splits a hypothesis [e ∈ l], for a concrete list [l], into its
    cases. *)
Ltac cases_of H :=
  vm_compute in H;
  repeat match goal with
         | H' : list_elem_of _ _ |- _ => inversion H'; clear H'; subst
         | H' : _ ∈ _ |- _ => inversion H'; clear H'; subst
         end.

(** C4, at the failing input: for a success response whose payload has
    no status marker, [get_breed_image] raises [KeyError] instead of
    returning [None], and the fault ends the run that made the call. *)
Theorem unmarked_payload_raises :
  status_code image_no_status = 200
  ∧ json image_no_status = Some [("message", husky_jpg)]
  ∧ (get_breed_image images_unmarked "akita" None (init tt ∅)).1
    = Raise (KeyError "status")
  ∧ (run images_unmarked (Some "akita") (init tt ∅)).1
    = Raise (KeyError "status").
Proof. repeat split; vm_compute; reflexivity. Qed.

(** The payload without a status marker, in a run over all breeds: the
    folder of [akita] is created, its image query raises, and the run ends
    there. *)
Example images_unmarked_run :
  run images_unmarked None (init tt ∅)
  = (Raise (KeyError "status"),
     State tt [] ∅
       [CreateFolder "/PY-130(API)" true;
        CreateFolder "/PY-130(API)/dog_images" true;
        GetAllBreeds (Return payload);
        CreateFolder "/PY-130(API)/dog_images/akita" true;
        GetBreedImage "akita" None (Raise (KeyError "status"))]).
Proof. vm_compute. reflexivity. Qed.

(** A candidate whose URL [urlparse] accepts: one upload request, one
    record. *)
Lemma one_record_per_upload_witness :
  ∃ r disk_path ok,
    (download_single_image akita_refused
       (ImgData husky_jpg "husky" (Some "siberian"))
       "/PY-130(API)/dog_images/husky" (init tt ∅)).1 = Return tt
    ∧ results (download_single_image akita_refused
                 (ImgData husky_jpg "husky" (Some "siberian"))
                 "/PY-130(API)/dog_images/husky" (init tt ∅)).2
      = results (init tt ∅) ++ [r]
    ∧ trace (download_single_image akita_refused
               (ImgData husky_jpg "husky" (Some "siberian"))
               "/PY-130(API)/dog_images/husky" (init tt ∅)).2
      = trace (init tt ∅) ++ [UploadFile husky_jpg disk_path ok].
Proof.
  apply (proj1 (one_record_per_upload akita_refused)
           (ImgData husky_jpg "husky" (Some "siberian"))
           "/PY-130(API)/dog_images/husky" (init tt ∅)
           "/breeds/husky/n02110063_8514.jpg").
  vm_compute. reflexivity.
Defined.

(** C1, as stated, fails: the authority of [bracket_jpg] opens a bracket
    that it does not close, [urlparse] raises [ValueError] on it, and the
    call of [download_single_image] for a candidate with that URL ends
    there, before the upload request: no record is appended. *)
Lemma rejected_url_appends_no_record :
  download_single_image akita_refused (ImgData bracket_jpg "husky" None)
    "/PY-130(API)/dog_images/husky" (init tt ∅)
  = (Raise ValueError, init tt ∅)
  ∧ ¬ one_record_per_call akita_refused.
Proof.
  split; [vm_compute; reflexivity|].
  intros H.
  destruct (H (ImgData bracket_jpg "husky" None)
              "/PY-130(API)/dog_images/husky" (init tt ∅)) as [r Hr].
  vm_compute in Hr. discriminate Hr.
Qed.

(** The run of [images_unparsable] over all breeds: the folder of [akita]
    is created, its image query returns [bracket_jpg], and [urlparse]
    raises on that URL before the upload. *)
Example images_unparsable_run :
  run images_unparsable None (init tt ∅)
  = (Raise ValueError,
     State tt [] ∅
       [CreateFolder "/PY-130(API)" true;
        CreateFolder "/PY-130(API)/dog_images" true;
        GetAllBreeds (Return payload);
        CreateFolder "/PY-130(API)/dog_images/akita" true;
        GetBreedImage "akita" None (Return (Some bracket_jpg))]).
Proof. vm_compute. reflexivity. Qed.

(** C2, as stated, fails: in the run of [images_unparsable] over all breeds
    the folder of [akita] is created and its one image resolution succeeds,
    with a URL that is not empty; [urlparse] raises [ValueError] on that
    URL, the fault ends the run, and the results hold no record of
    [akita]. *)
Lemma resolved_breed_without_record :
  ¬ completeness images_unparsable None tt ∅ "akita".
Proof.
  intros H. unfold completeness in H. cbv zeta in H.
  specialize (H payload catalog []).
  assert (Hn : length (filter (record_for "akita")
                         (results (run images_unparsable None (init tt ∅)).2))
               = 1%nat).
  { apply H.
    - evaluate.
    - reflexivity.
    - evaluate.
    - reflexivity.
    - evaluate.
    - intros q r Hin. cases_of Hin. eexists. split; [reflexivity|discriminate]. }
  vm_compute in Hn. discriminate Hn.
Qed.


(** [husky] in the run of [akita_refused] over all breeds: two sub-breeds,
    two records. *)
Lemma completeness_per_breed_witness :
  length (filter (record_for "husky")
            (results (run akita_refused None (init tt ∅)).2)) = 2%nat.
Proof.
  assert (Hrun : (run akita_refused None (init tt ∅)).1 = Return tt)
    by (vm_compute; reflexivity).
  apply (completeness_per_breed akita_refused None tt ∅ "husky" Hrun
           payload catalog ["siberian"; "alaskan"]).
  - evaluate.
  - reflexivity.
  - evaluate.
  - reflexivity.
  - evaluate.
  - intros q r H. cases_of H; eexists; (split; [reflexivity|discriminate]).
Defined.

(** The catalog service is down and [get_all_breeds] returns [{}]. *)
Lemma empty_catalog_aborts_witness :
  (run catalog_down (Some "husky") (init tt ∅)).1 = Return tt
  ∧ trace (run catalog_down (Some "husky") (init tt ∅)).2
    = [CreateFolder "/PY-130(API)" true;
       CreateFolder "/PY-130(API)/dog_images" true; GetAllBreeds (Return [])]
  ∧ results (run catalog_down (Some "husky") (init tt ∅)).2 = []
  ∧ files (run catalog_down (Some "husky") (init tt ∅)).2
      !! "download_results.json"
    = (∅ : gmap string string) !! "download_results.json".
Proof.
  apply (empty_catalog_aborts catalog_down (Some "husky") tt ∅ []).
  - evaluate.
  - by left.
Defined.

(** The run of [catalog_empty] over all breeds: the loop over the breeds
    has nothing to do, and the manifest is written with no record. *)
Example catalog_empty_run :
  run catalog_empty None (init tt ∅)
  = (Return tt,
     State tt [] {["download_results.json" := "[]"]}
       [CreateFolder "/PY-130(API)" true;
        CreateFolder "/PY-130(API)/dog_images" true;
        GetAllBreeds
          (Return [("message", Breeds []); ("status", Text "success")]);
        WriteFile "download_results.json" "[]"]).
Proof. vm_compute. reflexivity. Qed.

(** C5, as stated, fails: the listing of [catalog_empty] is a success
    whose breed mapping is empty; the run over all breeds does not stop
    there: it reaches the end and writes the manifest, an empty array. *)
Lemma empty_mapping_is_finalized :
  ¬ abort_on_empty_mapping catalog_empty None tt ∅.
Proof.
  intros H. unfold abort_on_empty_mapping in H. cbv zeta in H.
  destruct (H [("message", Breeds []); ("status", Text "success")])
    as (_ & Hw & _).
  - evaluate.
  - by right.
  - apply (Hw "download_results.json" "[]"). evaluate.
Qed.

(** The storage service answers the upload request with 507. *)
Lemma failed_transfer_is_recorded_witness :
  (download_single_image uploads_rejected
     (ImgData husky_jpg "husky" (Some "siberian"))
     "/PY-130(API)/dog_images/husky" (init tt ∅)).1 = Return tt
  ∧ results (download_single_image uploads_rejected
               (ImgData husky_jpg "husky" (Some "siberian"))
               "/PY-130(API)/dog_images/husky" (init tt ∅)).2
    = [[("breed", PStr "husky"); ("sub_breed", PStr "siberian");
        ("filename", PStr "husky_siberian_n02110063_8514.jpg");
        ("original_url", PStr husky_jpg);
        ("disk_path",
         PStr "/PY-130(API)/dog_images/husky/husky_siberian_n02110063_8514.jpg");
        ("status", PStr "error")]]
  ∧ trace (download_single_image uploads_rejected
             (ImgData husky_jpg "husky" (Some "siberian"))
             "/PY-130(API)/dog_images/husky" (init tt ∅)).2
    = [UploadFile husky_jpg
         "/PY-130(API)/dog_images/husky/husky_siberian_n02110063_8514.jpg"
         false].
Proof.
  apply (failed_transfer_is_recorded uploads_rejected "husky" (Some "siberian")
           husky_jpg "/PY-130(API)/dog_images/husky" (init tt ∅)
           "/breeds/husky/n02110063_8514.jpg").
  - vm_compute. reflexivity.
  - vm_compute. discriminate.
Defined.

(** [poodle] is not in the catalog. *)
Lemma unknown_target_aborts_witness :
  aborted (trace (run akita_refused (Some "poodle") (init tt ∅)).2)
  ∧ (∀ ok, CreateFolder "/PY-130(API)/dog_images/poodle" ok
           ∉ trace (run akita_refused (Some "poodle") (init tt ∅)).2)
  ∧ (∀ b q r, GetBreedImage b q r
              ∉ trace (run akita_refused (Some "poodle") (init tt ∅)).2)
  ∧ (∀ u p ok, UploadFile u p ok
               ∉ trace (run akita_refused (Some "poodle") (init tt ∅)).2)
  ∧ (∀ n c, WriteFile n c
            ∉ trace (run akita_refused (Some "poodle") (init tt ∅)).2)
  ∧ files (run akita_refused (Some "poodle") (init tt ∅)).2 = ∅
  ∧ results (run akita_refused (Some "poodle") (init tt ∅)).2 = [].
Proof.
  apply (unknown_target_aborts akita_refused "poodle" tt ∅).
  - discriminate.
  - intros data m H Hm. cases_of H. vm_compute in Hm.
    injection Hm as <-. reflexivity.
Defined.

(** The path of [https://images.dog.ceo/breeds/husky/] ends with a slash. *)
Lemma trailing_slash_filename_witness :
  (extract_filename_from_url akita_refused
     "https://images.dog.ceo/breeds/husky/" (init tt ∅)).1 = Return EmptyString
  ∧ ∃ ok r,
      (download_single_image akita_refused
         (ImgData "https://images.dog.ceo/breeds/husky/" "husky" (Some "siberian"))
         "/PY-130(API)/dog_images/husky" (init tt ∅)).1 = Return tt
      ∧ trace (download_single_image akita_refused
                 (ImgData "https://images.dog.ceo/breeds/husky/" "husky"
                    (Some "siberian"))
                 "/PY-130(API)/dog_images/husky" (init tt ∅)).2
        = [] ++ [UploadFile "https://images.dog.ceo/breeds/husky/"
                   ("/PY-130(API)/dog_images/husky" +:+ "/" +:+ "husky_siberian_")
                   ok]
      ∧ results (download_single_image akita_refused
                   (ImgData "https://images.dog.ceo/breeds/husky/" "husky"
                      (Some "siberian"))
                   "/PY-130(API)/dog_images/husky" (init tt ∅)).2
        = [] ++ [r]
      ∧ Dict.get "filename" r = Some (PStr "husky_siberian_")
      ∧ Dict.get "disk_path" r
        = Some (PStr ("/PY-130(API)/dog_images/husky" +:+ "/" +:+ "husky_siberian_"))
      ∧ Dict.get "status" r = Some (PStr (if ok then "success" else "error")).
Proof.
  apply (trailing_slash_filename akita_refused "husky" (Some "siberian")
           "https://images.dog.ceo/breeds/husky/"
           "/PY-130(API)/dog_images/husky" (init tt ∅) "/breeds/husky").
  vm_compute. reflexivity.
Defined.

(** The run of [alaskan_garbled] over all breeds. *)
Example alaskan_garbled_run :
  run alaskan_garbled None (init tt ∅)
  = (Raise JSONDecodeError,
     State tt [] ∅
       [CreateFolder "/PY-130(API)" true;
        CreateFolder "/PY-130(API)/dog_images" true;
        GetAllBreeds (Return payload);
        CreateFolder "/PY-130(API)/dog_images/akita" false;
        CreateFolder "/PY-130(API)/dog_images/husky" true;
        GetBreedImage "husky" (Some "siberian") (Return (Some husky_jpg));
        GetBreedImage "husky" (Some "alaskan") (Raise JSONDecodeError)]).
Proof. vm_compute. reflexivity. Qed.

(** C7, as stated, fails: in the run of [alaskan_garbled] over all
    breeds the folder of [akita] is refused and the folder of [husky] is
    created; [husky/siberian] is resolved, then the body of the answer for
    [husky/alaskan] is not JSON and [response.json()] raises.  The fault
    ends the run: the candidate for [husky/siberian] gets no record and the
    manifest is never written. *)
Lemma folder_failure_not_isolated :
  ¬ partial_failure_isolation alaskan_garbled None tt ∅ "akita" "husky".
Proof.
  intros H. destruct H as (_ & _ & Hlast & _).
  - intros data m Hin Hm. cases_of Hin. vm_compute in Hm.
    injection Hm as <-. evaluate.
  - evaluate.
  - evaluate.
  - vm_compute in Hlast. discriminate Hlast.
Qed.

(** The run of [akita_refused] over all breeds: the folder of [akita] is
    refused, the two sub-breeds of [husky] are resolved, uploaded and
    recorded, and the manifest is written. *)
Lemma folder_failure_is_isolated_witness :
  filter (record_for "akita")
    (results (run akita_refused None (init tt ∅)).2) = []
  ∧ (∀ q u,
       GetBreedImage "husky" q (Return (Some u))
       ∈ trace (run akita_refused None (init tt ∅)).2 →
       u ≠ EmptyString →
       ∃ r, r ∈ results (run akita_refused None (init tt ∅)).2
            ∧ Dict.get "breed" r = Some (PStr "husky")
            ∧ Dict.get "sub_breed" r = Some (opt_val q)
            ∧ Dict.get "original_url" r = Some (PStr u))
  ∧ finalized ∅ (run akita_refused None (init tt ∅)).2.
Proof.
  apply (folder_failure_is_isolated akita_refused None tt ∅ "akita" "husky").
  - reflexivity.
  - intros data m Hin Hm. cases_of Hin. vm_compute in Hm.
    injection Hm as <-. evaluate.
  - evaluate.
  - evaluate.
Defined.

(** The run of [images_garbled] for [akita]. *)
Example images_garbled_run :
  run images_garbled (Some "akita") (init tt ∅)
  = (Raise JSONDecodeError,
     State tt [] ∅
       [CreateFolder "/PY-130(API)" true;
        CreateFolder "/PY-130(API)/dog_images" true;
        GetAllBreeds (Return payload);
        CreateFolder "/PY-130(API)/dog_images/akita" true;
        GetBreedImage "akita" None (Raise JSONDecodeError)]).
Proof. vm_compute. reflexivity. Qed.

(** C9, as stated, fails: the run of [images_garbled] for [akita] passes
    Init, CatalogFetch and BreedSelection and creates the folder; the body
    of the answer to the image query is not JSON, [response.json()] raises,
    and the fault ends the run with no record and no manifest. *)
Lemma empty_manifest_not_written :
  ¬ empty_manifest_at_finalize images_garbled (Some "akita") tt ∅.
Proof.
  intros H. destruct H as (Hlast & _).
  - exists payload, catalog. split; [evaluate|].
    split; [reflexivity|]. intros _. by eexists.
  - reflexivity.
  - vm_compute in Hlast. discriminate Hlast.
Qed.

(** The run of [akita_refused] for [akita], over a stale manifest: the
    folder is refused, no record is made, and the manifest is rewritten. *)
Lemma empty_manifest_is_written_witness :
  last (trace (run akita_refused (Some "akita")
                 (init tt {["download_results.json" := "stale"]})).2)
  = Some (WriteFile "download_results.json" "[]")
  ∧ files (run akita_refused (Some "akita")
             (init tt {["download_results.json" := "stale"]})).2
    = <["download_results.json" := "[]"]> {["download_results.json" := "stale"]}.
Proof.
  apply (empty_manifest_is_written akita_refused (Some "akita") tt
           {["download_results.json" := "stale"]}).
  - reflexivity.
  - exists payload, catalog. split; [evaluate|].
    split; [reflexivity|]. intros _. by eexists.
  - reflexivity.
Defined.

(** ** Further runs *)

Import Cases.

(** The storage service refuses the root folder. *)
Lemma init_failure_stops_the_run_witness :
  (run token_refused None (init tt ∅)).1 = Return tt
  ∧ trace (run token_refused None (init tt ∅)).2
    = (if String.eqb "/PY-130(API)" "/PY-130(API)"
       then [CreateFolder "/PY-130(API)" false]
       else [CreateFolder "/PY-130(API)" true; CreateFolder "/PY-130(API)" false])
  ∧ results (run token_refused None (init tt ∅)).2 = []
  ∧ files (run token_refused None (init tt ∅)).2 = ∅.
Proof.
  apply (init_failure_stops_the_run token_refused None tt ∅ "/PY-130(API)").
  - by left.
  - evaluate.
Defined.

(** The folder of the images is refused. *)
Example images_refused_run :
  run images_refused (Some "husky") (init tt ∅)
  = (Return tt,
     State tt [] ∅
       [CreateFolder "/PY-130(API)" true;
        CreateFolder "/PY-130(API)/dog_images" false]).
Proof. vm_compute. reflexivity. Qed.

(** The listing is [{"status": "error"}]. *)
Lemma listing_without_message_aborts_witness :
  (run listing_unmarked None (init tt ∅)).1 = Return tt
  ∧ trace (run listing_unmarked None (init tt ∅)).2
    = [CreateFolder "/PY-130(API)" true;
       CreateFolder "/PY-130(API)/dog_images" true;
       GetAllBreeds (Return [("status", Text "error")])]
  ∧ results (run listing_unmarked None (init tt ∅)).2 = []
  ∧ files (run listing_unmarked None (init tt ∅)).2 = ∅.
Proof.
  apply (listing_without_message_aborts listing_unmarked None tt ∅
           [("status", Text "error")]).
  - evaluate.
  - reflexivity.
Defined.

(** The run of [alaskan_broken] over all breeds: [akita] is uploaded and
    recorded, [husky/siberian] is resolved, and the query for
    [husky/alaskan] raises. *)
Example alaskan_broken_run :
  run alaskan_broken None (init tt ∅)
  = (Raise JSONDecodeError,
     State tt
       [[("breed", PStr "akita"); ("sub_breed", PNone);
         ("filename", PStr "akita_n02110063_8514.jpg");
         ("original_url", PStr husky_jpg);
         ("disk_path",
          PStr "/PY-130(API)/dog_images/akita/akita_n02110063_8514.jpg");
         ("status", PStr "success")]]
       ∅
       [CreateFolder "/PY-130(API)" true;
        CreateFolder "/PY-130(API)/dog_images" true;
        GetAllBreeds (Return payload);
        CreateFolder "/PY-130(API)/dog_images/akita" true;
        GetBreedImage "akita" None (Return (Some husky_jpg));
        UploadFile husky_jpg
          "/PY-130(API)/dog_images/akita/akita_n02110063_8514.jpg" true;
        CreateFolder "/PY-130(API)/dog_images/husky" true;
        GetBreedImage "husky" (Some "siberian") (Return (Some husky_jpg));
        GetBreedImage "husky" (Some "alaskan") (Raise JSONDecodeError)]).
Proof. vm_compute. reflexivity. Qed.



(** The manifest of the run of [akita_refused] over all breeds. *)
Lemma manifest_is_written_once_at_the_end_witness :
  "download_results.json" = "download_results.json"
  ∧ Json.dump (results (run akita_refused None (init tt ∅)).2)
    = Json.dump (results (run akita_refused None (init tt ∅)).2)
  ∧ (run akita_refused None (init tt ∅)).1 = Return tt
  ∧ files (run akita_refused None (init tt ∅)).2
    = <["download_results.json"
        := Json.dump (results (run akita_refused None (init tt ∅)).2)]> ∅
  ∧ ∃ evs,
      trace (run akita_refused None (init tt ∅)).2
      = evs ++ [WriteFile "download_results.json"
                  (Json.dump (results (run akita_refused None (init tt ∅)).2))]
      ∧ ∀ n' c', WriteFile n' c' ∉ evs.
Proof.
  apply (manifest_is_written_once_at_the_end akita_refused None tt ∅
           "download_results.json"
           (Json.dump (results (run akita_refused None (init tt ∅)).2))).
  evaluate.
Defined.

(** A file of the working directory that is neither the manifest nor the
    log. *)
Lemma other_files_are_untouched_witness :
  files (run akita_refused None (init tt {["notes.txt" := "keep"]})).2 !! "notes.txt"
  = ({["notes.txt" := "keep"]} : gmap string string) !! "notes.txt".
Proof.
  apply (other_files_are_untouched akita_refused None tt
           {["notes.txt" := "keep"]} "notes.txt").
  - discriminate.
  - discriminate.
Defined.

(** The listing of the run of [akita_refused] for [husky]. *)
Lemma listing_once_after_init_witness :
  ∃ rest,
    trace (run akita_refused (Some "husky") (init tt ∅)).2
    = [CreateFolder "/PY-130(API)" true;
       CreateFolder "/PY-130(API)/dog_images" true;
       GetAllBreeds (Return payload)] ++ rest
    ∧ (∀ r', GetAllBreeds r' ∉ rest)
    ∧ (∀ ok, CreateFolder "/PY-130(API)" ok ∉ rest)
    ∧ (∀ ok, CreateFolder "/PY-130(API)/dog_images" ok ∉ rest).
Proof.
  apply (listing_once_after_init akita_refused (Some "husky") tt ∅ (Return payload)).
  evaluate.
Defined.

(** The run of [akita_refused] for [husky]. *)
Lemma requested_breed_only_witness :
  Forall (record_for "husky")
    (results (run akita_refused (Some "husky") (init tt ∅)).2)
  ∧ (∀ b q r,
       GetBreedImage b q r ∈ trace (run akita_refused (Some "husky") (init tt ∅)).2 →
       b = "husky")
  ∧ folder_requests (trace (run akita_refused (Some "husky") (init tt ∅)).2)
    `prefix_of` ["/PY-130(API)"; "/PY-130(API)/dog_images";
                 "/PY-130(API)/dog_images/" +:+ "husky"].
Proof.
  apply (requested_breed_only akita_refused "husky" tt ∅). discriminate.
Defined.

(** The folders of the run of [akita_refused] over all breeds. *)
Lemma breeds_are_visited_in_listing_order_witness :
  ∃ k,
    folder_requests (trace (run akita_refused None (init tt ∅)).2)
    = "/PY-130(API)" :: "/PY-130(API)/dog_images"
      :: ((λ b, "/PY-130(API)/dog_images/" +:+ b) <$> take k (Dict.keys catalog))
    ∧ ((run akita_refused None (init tt ∅)).1 = Return tt
       → k = length (Dict.keys catalog)).
Proof.
  apply (breeds_are_visited_in_listing_order akita_refused None tt ∅ payload catalog).
  - reflexivity.
  - evaluate.
  - reflexivity.
Defined.

(** The upload for [husky/siberian] in the run of [akita_refused]. *)
Lemma uploads_follow_folder_and_query_witness :
  husky_jpg ≠ EmptyString
  ∧ ∃ b q l1 l2 l3 l4,
      trace (run akita_refused None (init tt ∅)).2
      = l1 ++ CreateFolder ("/PY-130(API)/dog_images/" +:+ b) true
        :: l2 ++ GetBreedImage b q (Return (Some husky_jpg))
        :: l3 ++ UploadFile husky_jpg
                   "/PY-130(API)/dog_images/husky/husky_siberian_n02110063_8514.jpg"
                   true :: l4
      ∧ "/PY-130(API)/dog_images/husky/husky_siberian_n02110063_8514.jpg"
        = ("/PY-130(API)/dog_images/" +:+ b) +:+ "/"
          +:+ filename_of (ImgData husky_jpg b q).
Proof.
  apply (uploads_follow_folder_and_query akita_refused None tt ∅ husky_jpg
           "/PY-130(API)/dog_images/husky/husky_siberian_n02110063_8514.jpg" true).
  evaluate.
Defined.

(** The run of [alaskan_missing] over all breeds: the record for
    [husky/alaskan] is left out. *)
Example alaskan_missing_keys :
  record_key <$> results (run alaskan_missing None (init tt ∅)).2
  = [(Some (PStr "akita"), Some PNone);
     (Some (PStr "husky"), Some (PStr "siberian"))]
  ∧ listing_keys (Dict.items catalog)
    = [(Some (PStr "akita"), Some PNone);
       (Some (PStr "husky"), Some (PStr "siberian"));
       (Some (PStr "husky"), Some (PStr "alaskan"))].
Proof. split; vm_compute; reflexivity. Qed.

Lemma records_follow_the_listing_witness :
  record_key <$> results (run alaskan_missing None (init tt ∅)).2
  `sublist_of` listing_keys (Dict.items catalog).
Proof.
  apply (records_follow_the_listing alaskan_missing None tt ∅ payload catalog).
  - evaluate.
  - reflexivity.
Defined.

(** [husky] in the run of [alaskan_missing]: two sub-breeds, one record. *)
Lemma at_most_one_record_per_sub_breed_witness :
  (length (filter (record_for "husky")
             (results (run alaskan_missing None (init tt ∅)).2))
   ≤ match Dict.get "husky" catalog with
     | Some [] => 1
     | Some (s :: sub_breeds) => length (s :: sub_breeds)
     | None => 0
     end)%nat.
Proof.
  apply (at_most_one_record_per_sub_breed alaskan_missing None tt ∅
           payload catalog "husky").
  - evaluate.
  - reflexivity.
  - evaluate.
Defined.

(** A line of spaces for the breed. *)
Lemma empty_input_makes_no_request_witness :
  downloader (main strip lower str by_token (Console ["   "; "secret"] []) tt ∅) = None
  ∧ uncaught (main strip lower str by_token (Console ["   "; "secret"] []) tt ∅) = None
  ∧ stdin (console_after
             (main strip lower str by_token (Console ["   "; "secret"] []) tt ∅))
    = (if Str.truthy (lower (strip "   ")) then tail ["secret"] else ["secret"])
  ∧ last (stdout (console_after
                    (main strip lower str by_token (Console ["   "; "secret"] []) tt ∅)))
    = Some ((if Str.truthy (lower (strip "   "))
             then "Ошибка: Токен не может быть пустым!"
             else "Ошибка: Порода не может быть пустой!") +:+ Str.nl).
Proof.
  apply (empty_input_makes_no_request strip lower str by_token
           (Console ["   "; "secret"] []) tt ∅ "   " ["secret"]).
  - reflexivity.
  - left. reflexivity.
Defined.

(** The breed [ Husky ] and the token that the storage service knows. *)
Lemma main_reports_how_the_run_ended_witness :
  downloader (main strip lower str by_token (Console [" Husky "; "secret "] []) tt ∅)
  = Some (run (by_token (strip "secret ")) (Some (lower (strip " Husky "))) (init tt ∅))
  ∧ uncaught (main strip lower str by_token (Console [" Husky "; "secret "] []) tt ∅)
    = None
  ∧ stdin (console_after
             (main strip lower str by_token (Console [" Husky "; "secret "] []) tt ∅))
    = []
  ∧ ∃ before,
      stdout (console_after
                (main strip lower str by_token (Console [" Husky "; "secret "] []) tt ∅))
      = stdout (Console [" Husky "; "secret "] []) ++ before
        ++ match (run (by_token (strip "secret ")) (Some (lower (strip " Husky ")))
                    (init tt ∅)).1 with
           | Return _ => success_report (lower (strip " Husky "))
           | Raise e => failure_report (str e)
           end.
Proof.
  apply (main_reports_how_the_run_ended strip lower str by_token
           (Console [" Husky "; "secret "] []) tt ∅ " Husky " "secret " []).
  - reflexivity.
  - vm_compute. discriminate.
  - vm_compute. discriminate.
Defined.

(** What [strip] and [lower] make of the two lines. *)
Example husky_secret :
  lower (strip " Husky ") = "husky" ∧ strip "secret " = "secret".
Proof. split; vm_compute; reflexivity. Qed.

(** A token that the storage service does not know: the root folder is
    refused, the run returns, and [main] reports success. *)
Lemma early_stop_is_reported_as_success_witness :
  (∃ before,
     stdout (console_after
               (main strip lower str by_token (Console ["husky"; "wrong"] []) tt ∅))
     = before ++ success_report (lower (strip "husky")))
  ∧ "Результаты сохранены в файле: download_results.json" +:+ Str.nl
    ∈ stdout (console_after
                (main strip lower str by_token (Console ["husky"; "wrong"] []) tt ∅))
  ∧ ∃ st,
      downloader (main strip lower str by_token (Console ["husky"; "wrong"] []) tt ∅)
      = Some (Return tt, st)
      ∧ files st !! "download_results.json"
        = (∅ : gmap string string) !! "download_results.json".
Proof.
  apply (early_stop_is_reported_as_success strip lower str by_token
           (Console ["husky"; "wrong"] []) tt ∅ "husky" "wrong" []).
  - reflexivity.
  - vm_compute. discriminate.
  - vm_compute. discriminate.
  - reflexivity.
  - intros n content H. cases_of H.
Defined.

(** The catalog service answers the listing with 503. *)
Lemma unavailable_catalog_stops_the_run_witness :
  run catalog_down (Some "husky") (init tt ∅)
  = (Return tt,
     State
       (get_breeds catalog_down "https://dog.ceo/api/breeds/list/all"
          (put catalog_down "/PY-130(API)/dog_images"
             (put catalog_down "/PY-130(API)" tt).2).2).2
       [] ∅
       [CreateFolder "/PY-130(API)" true;
        CreateFolder "/PY-130(API)/dog_images" true;
        GetAllBreeds (Return [])]).
Proof.
  refine (unavailable_catalog_stops_the_run catalog_down (Some "husky") tt ∅ _ _ _).
  - left. reflexivity.
  - left. reflexivity.
  - vm_compute. discriminate.
Defined.

Example wrong_token_run :
  run (by_token "wrong") (Some "husky") (init tt ∅)
  = (Return tt, State tt [] ∅ [CreateFolder "/PY-130(API)" false]).
Proof. vm_compute. reflexivity. Qed.

End Runs.
